(** * Verification of the course-RAG tool-calling loop

    Shallow embedding of [backend/ai_generator.py] (class [AIGenerator]):
    the bounded multi-round protocol between the LLM client and the tool
    manager, together with the filter builder and the search-result
    container of the vector store, which the test-suite exercises. *)

From Stdlib Require Import String Ascii List Bool Arith Lia ZArith QArith.
From Equations Require Import Equations.
Import ListNotations.
Local Open Scope string_scope.
Local Open Scope list_scope.
Local Open Scope nat_scope.

Set Implicit Arguments.

(* ===================================================================== *)
(** ** Python values used by the generator *)
(* ===================================================================== *)

(** A raised Python exception: its class name and [str(e)].  The class
    decides whether [except Exception as e] catches it (see
    [try_except_Exception]).  Section [Generator] has the generator for
    tools whose exceptions are all instances of [Exception]; Section
    [AnyException] has it for tools that may also raise outside that
    hierarchy ([KeyboardInterrupt], [SystemExit], ...);
    [generate_response_any_agrees] relates the two. *)
Record PyException : Type := mkExc {
  exc_class : string;
  exc_str   : string
}.

(** Outcome of a Python call: a returned value or a raised [Exception]. *)
Inductive pyresult (A : Type) : Type :=
| Ok    (a : A)
| Raise (e : PyException).
Arguments Ok {A} a.
Arguments Raise {A} e.

Definition is_ok {A} (r : pyresult A) : bool :=
  match r with Ok _ => true | Raise _ => false end.

(** Keyword arguments of a tool call ([content_block.input]). *)
Definition kwargs : Type := list (string * string).

(** Content blocks of an LLM message.  [TextBlock] is the only block with
    a [text] attribute; [ToolUseBlock] is the only one whose [type] is
    ["tool_use"]; [ThinkingBlock] stands for the other block kinds. *)
Inductive ContentBlock : Type :=
| TextBlock     (text : string)
| ToolUseBlock  (id name : string) (input : kwargs)
| ThinkingBlock (thinking : string).

Definition block_type (b : ContentBlock) : string :=
  match b with
  | TextBlock _ => "text"
  | ToolUseBlock _ _ _ => "tool_use"
  | ThinkingBlock _ => "thinking"
  end.

(** [hasattr(block, 'text')] *)
Definition hasattr_text (b : ContentBlock) : bool :=
  match b with TextBlock _ => true | _ => false end.

(** The LLM response object ([anthropic.types.Message]). *)
Record Message : Type := mkMessage {
  content     : list ContentBlock;
  stop_reason : string
}.

(** One entry of the [tool_results] list. *)
Record ToolResult : Type := mkToolResult {
  tr_type     : string;
  tool_use_id : string;
  tr_content  : string
}.

(** The ["content"] of a chat message: the query text, the assistant's
    blocks, or the list of tool results. *)
Inductive MsgContent : Type :=
| CText        (s : string)
| CBlocks      (bs : list ContentBlock)
| CToolResults (rs : list ToolResult).

Record ChatMessage : Type := mkChat {
  role        : string;
  msg_content : MsgContent
}.

(* ===================================================================== *)
(** ** Constants of [AIGenerator] *)
(* ===================================================================== *)

Definition nl : string := String (ascii_of_nat 10) EmptyString.
Definition dquote : string := String (ascii_of_nat 34) EmptyString.

Definition SYSTEM_PROMPT : string :=
" You are an AI assistant specialized in course materials and educational content with access to a comprehensive search tool for course information.

Search Tool Usage:
- Use the search tool **only** for questions about specific course content or detailed educational materials
- **Up to two searches per query** for complex queries requiring comparisons or multi-part questions
- For simple single-topic questions, one search is sufficient
- Synthesize search results into accurate, fact-based responses
- If search yields no results, state this clearly without offering alternatives

Response Protocol:
- **General knowledge questions**: Answer using existing knowledge without searching
- **Course-specific questions**: Search first, then answer
- **No meta-commentary**:
 - Provide direct answers only â€” no reasoning process, search explanations, or question-type analysis
 - Do not mention " ++ dquote ++ "based on the search results" ++ dquote ++ "


All responses must be:
1. **Brief, Concise and focused** - Get to the point quickly
2. **Educational** - Maintain instructional value
3. **Clear** - Use accessible language
4. **Example-supported** - Include relevant examples when they aid understanding
Provide only the direct answer to what was asked.
".

Definition MAX_TOOL_ROUNDS : nat := 2.

Definition FALLBACK : string :=
  "I was unable to generate a complete response. Please try rephrasing your question.".

Definition TOOL_ERROR_PREFIX : string := "Tool execution error: ".

(** Exceptions raised by [response.content[0].text]. *)
Definition IndexError : PyException :=
  mkExc "IndexError" "list index out of range".
(** The name of a block's class, as [type(block).__name__] gives it. *)
Definition block_class (b : ContentBlock) : string :=
  match b with
  | TextBlock _ => "TextBlock"
  | ToolUseBlock _ _ _ => "ToolUseBlock"
  | ThinkingBlock _ => "ThinkingBlock"
  end.

Definition AttributeError (b : ContentBlock) : PyException :=
  mkExc "AttributeError"
        ("'" ++ block_class b ++ "' object has no attribute 'text'").

(* ===================================================================== *)
(** ** The generator, over an abstract LLM client and tool manager *)
(* ===================================================================== *)

Section Generator.

(** Tool definitions are passed through to the API untouched. *)
Variable Schema : Type.

(** Keyword arguments of [client.messages.create]. *)
Record ApiParams : Type := mkParams {
  model       : string;
  temperature : nat;
  max_tokens  : nat;
  messages    : list ChatMessage;
  system      : string;
  tools       : option (list Schema);   (* [None]: key absent *)
  tool_choice : option string           (* [Some "auto"]: {"type": "auto"} *)
}.

(** State of everything outside the generator: the LLM behind the API
    client and the tools behind the tool manager. *)
Variable World : Type.
Variable messages_create : ApiParams -> World -> pyresult Message * World.

(** A tool manager object; [execute_tool] may raise. *)
Variable ToolManager : Type.
Variable execute_tool :
  ToolManager -> string -> kwargs -> World -> pyresult string * World.

(** [self.model], fixed by [__init__]. *)
Variable self_model : string.

(** Outbound calls, in the order they are made. *)
Inductive Event : Type :=
| EvCreate  (p : ApiParams) (r : pyresult Message)
| EvExecute (name : string) (input : kwargs) (r : pyresult string).

Record Run : Type := mkRun {
  world : World;
  log   : list Event
}.

(** *** State-and-exception monad *)

Definition M (A : Type) : Type := Run -> pyresult A * Run.

Definition ret {A} (a : A) : M A := fun s => (Ok a, s).

Definition bind {A B} (m : M A) (k : A -> M B) : M B :=
  fun s => match m s with
           | (Ok a, s') => k a s'
           | (Raise e, s') => (Raise e, s')
           end.

Definition raise {A} (e : PyException) : M A := fun s => (Raise e, s).

(** [try: ... except Exception as e: ...] (lines 117-124) with the
    outcome reified.  [is_Exception e] is [isinstance(e, Exception)]: an
    exception of the body is caught when it holds; any other one
    ([KeyboardInterrupt], [SystemExit], [GeneratorExit], ...) is not
    caught and propagates. *)
Definition try_except_Exception {A} (is_Exception : PyException -> bool)
           (m : M A) : M (pyresult A) :=
  fun s => match m s with
           | (Ok a, s') => (Ok (Ok a), s')
           | (Raise e, s') =>
               if is_Exception e then (Ok (Raise e), s') else (Raise e, s')
           end.

(** The handler for a body that raises instances of [Exception] only:
    every exception is caught.  This section has the generator for such
    tools; Section [AnyException] has it for tools that may raise
    anything. *)
Definition try_except {A} (m : M A) : M (pyresult A) :=
  try_except_Exception (fun _ => true) m.

Definition call_create (p : ApiParams) : M Message :=
  fun s => let '(r, w) := messages_create p (world s) in
           (r, mkRun w (log s ++ [EvCreate p r])).

Definition call_execute_tool (tm : ToolManager) (name : string)
           (input : kwargs) : M string :=
  fun s => let '(r, w) := execute_tool tm name input (world s) in
           (r, mkRun w (log s ++ [EvExecute name input r])).

Notation "x <- m ;; k" := (bind m (fun x => k))
  (at level 100, m at next level, right associativity).
Notation "' pat <- m ;; k" := (bind m (fun x => match x with pat => k end))
  (at level 100, pat pattern, m at next level, right associativity).

(** *** Small Python idioms *)

(** Truthiness of [Optional[str]] and [Optional[List]]. *)
Definition truthy_str (o : option string) : bool :=
  match o with
  | None => false
  | Some s => negb (String.eqb s EmptyString)
  end.

Definition truthy_list {A} (o : option (list A)) : bool :=
  match o with
  | None | Some [] => false
  | Some (_ :: _) => true
  end.

(** Truthiness of the [tool_manager] argument ([None] is falsy, a
    [ToolManager] object is truthy). *)
Definition truthy_obj {A} (o : option A) : bool :=
  match o with None => false | Some _ => true end.

(** [response.content[0].text] *)
Definition first_block_text (bs : list ContentBlock) : M string :=
  match bs with
  | [] => raise IndexError
  | TextBlock t :: _ => ret t
  | b :: _ => raise (AttributeError b)
  end.

(** [for block in content: if hasattr(block, 'text'): return block.text] *)
Fixpoint first_text (bs : list ContentBlock) : option string :=
  match bs with
  | [] => None
  | TextBlock t :: _ => Some t
  | _ :: bs' => first_text bs'
  end.

Definition base_params (msgs : list ChatMessage) (sys : string) : ApiParams :=
  mkParams self_model 0 800 msgs sys None None.

(** *** The tool loop of [_handle_tool_execution] (lines 113-130) *)

Fixpoint run_tools (tm : ToolManager) (blocks : list ContentBlock)
         (tool_results : list ToolResult) (tool_error : bool)
  : M (list ToolResult * bool) :=
  match blocks with
  | [] => ret (tool_results, tool_error)
  | content_block :: rest =>
      match content_block with
      | ToolUseBlock id name input =>
          r <- try_except (call_execute_tool tm name input) ;;
          let '(tool_result, tool_error') :=
            match r with
            | Ok s => (s, tool_error)
            | Raise e => ((TOOL_ERROR_PREFIX ++ exc_str e)%string, true)
            end in
          run_tools tm rest
            (tool_results ++ [mkToolResult "tool_result" id tool_result])
            tool_error'
      | _ => run_tools tm rest tool_results tool_error
      end
  end.

Definition is_tool_use (m : Message) : bool :=
  String.eqb (stop_reason m) "tool_use".

(** *** [_handle_tool_execution] *)

Equations? handle_tool_execution (initial_response : Message)
           (base : ApiParams) (tool_manager : ToolManager) (round : nat)
           (s : Run)
  : pyresult string * Run by wf (MAX_TOOL_ROUNDS - round) lt :=
handle_tool_execution initial_response base tool_manager round s :=
 (let messages0 :=
    messages base ++ [mkChat "assistant" (CBlocks (content initial_response))] in
  '(tool_results, tool_error) <-
      run_tools tool_manager (content initial_response) [] false ;;
  let messages1 :=
    match tool_results with
    | [] => messages0
    | _ :: _ => messages0 ++ [mkChat "user" (CToolResults tool_results)]
    end in
  let include_tools := (round <? MAX_TOOL_ROUNDS) && negb tool_error in
  let followup_params :=
    match include_tools, tools base with
    | true, Some ts =>
        mkParams self_model 0 800 messages1 (system base) (Some ts) (Some "auto")
    | _, _ => base_params messages1 (system base)
    end in
  followup_response <- call_create followup_params ;;
  match bool_dec (is_tool_use followup_response && include_tools) true with
  | left _ =>
      let updated_params :=
        mkParams (model base) (temperature base) (max_tokens base)
                 messages1 (system base) (tools base) (tool_choice base) in
      fun s' => handle_tool_execution followup_response updated_params
                                      tool_manager (S round) s'
  | right _ =>
      match first_text (content followup_response) with
      | Some t => ret t
      | None => ret FALLBACK
      end
  end) s.
Proof.
  apply andb_prop in e as [_ e]. subst include_tools.
  apply andb_prop in e as [e _]. apply Nat.ltb_lt in e.
  unfold MAX_TOOL_ROUNDS in e. destruct round as [|[|?]]; simpl; lia.
Qed.

(** *** [generate_response] *)

Definition generate_response (query : string)
           (conversation_history : option string)
           (tools_arg : option (list Schema))
           (tool_manager : option ToolManager) : M string :=
  let system_content :=
    if truthy_str conversation_history
    then (SYSTEM_PROMPT ++ nl ++ nl ++ "Previous conversation:" ++ nl
          ++ match conversation_history with Some h => h | None => EmptyString end)%string
    else SYSTEM_PROMPT in
  let api_params0 :=
    base_params [mkChat "user" (CText query)] system_content in
  let api_params :=
    if truthy_list tools_arg
    then mkParams (model api_params0) (temperature api_params0)
                  (max_tokens api_params0) (messages api_params0)
                  (system api_params0) tools_arg (Some "auto")
    else api_params0 in
  response <- call_create api_params ;;
  match is_tool_use response, tool_manager with
  | true, Some tm => handle_tool_execution response api_params tm 1
  | _, _ => first_block_text (content response)
  end.

(** *** One round, described by pure functions

    The tool-use blocks of a turn, the outcomes of executing them one
    after the other, and what the round hands to the follow-up call. *)

Definition ToolUse : Type := (string * string * kwargs)%type.

Definition tool_uses (bs : list ContentBlock) : list ToolUse :=
  flat_map (fun b => match b with
                     | ToolUseBlock id name input => [(id, name, input)]
                     | _ => []
                     end) bs.

(** Executing the calls in order, each in the world left by the one
    before it. *)
Fixpoint exec_seq (tm : ToolManager) (uses : list ToolUse) (w : World)
  : list (pyresult string) * World :=
  match uses with
  | [] => ([], w)
  | (_, name, input) :: us =>
      let '(r, w1) := execute_tool tm name input w in
      let '(rs, w2) := exec_seq tm us w1 in
      (r :: rs, w2)
  end.

Definition raised {A} (r : pyresult A) : bool := negb (is_ok r).

Definition rendered (r : pyresult string) : string :=
  match r with
  | Ok s => s
  | Raise e => (TOOL_ERROR_PREFIX ++ exc_str e)%string
  end.

Definition result_of (uo : ToolUse * pyresult string) : ToolResult :=
  let '((id, _, _), r) := uo in mkToolResult "tool_result" id (rendered r).

Definition event_of (uo : ToolUse * pyresult string) : Event :=
  let '((_, name, input), r) := uo in EvExecute name input r.

Definition results_of (uses : list ToolUse) (outs : list (pyresult string))
  : list ToolResult := map result_of (combine uses outs).

Definition events_of (uses : list ToolUse) (outs : list (pyresult string))
  : list Event := map event_of (combine uses outs).

Definition round_messages (base : ApiParams) (resp : Message)
           (outs : list (pyresult string)) : list ChatMessage :=
  let m0 := messages base ++ [mkChat "assistant" (CBlocks (content resp))] in
  match results_of (tool_uses (content resp)) outs with
  | [] => m0
  | rs => m0 ++ [mkChat "user" (CToolResults rs)]
  end.

Definition include_tools_of (round : nat) (outs : list (pyresult string))
  : bool := (round <? MAX_TOOL_ROUNDS) && negb (existsb raised outs).

Definition followup_of (base : ApiParams) (round : nat) (resp : Message)
           (outs : list (pyresult string)) : ApiParams :=
  match include_tools_of round outs, tools base with
  | true, Some ts =>
      mkParams self_model 0 800 (round_messages base resp outs)
               (system base) (Some ts) (Some "auto")
  | _, _ => base_params (round_messages base resp outs) (system base)
  end.

Definition updated_of (base : ApiParams) (resp : Message)
           (outs : list (pyresult string)) : ApiParams :=
  mkParams (model base) (temperature base) (max_tokens base)
           (round_messages base resp outs) (system base) (tools base)
           (tool_choice base).

Definition final_text (m : Message) : string :=
  match first_text (content m) with
  | Some t => t
  | None => FALLBACK
  end.

(** *** Reading the log *)

Definition is_execute (e : Event) : bool :=
  match e with EvExecute _ _ _ => true | EvCreate _ _ => false end.

Definition create_params (l : list Event) : list ApiParams :=
  flat_map (fun e => match e with EvCreate p _ => [p] | _ => [] end) l.

Definition has_tools (p : ApiParams) : bool :=
  match tools p with Some _ => true | None => false end.




Definition final_result (r : pyresult Message) : pyresult string :=
  match r with
  | Ok m => Ok (final_text m)
  | Raise e => Raise e
  end.

(** Outcome of the direct-return path, [response.content[0].text]. *)
Definition direct_result (r : pyresult Message) : pyresult string :=
  match r with
  | Raise e => Raise e
  | Ok m =>
      match content m with
      | [] => Raise IndexError
      | TextBlock t :: _ => Ok t
      | b :: _ => Raise (AttributeError b)
      end
  end.

(** *** The shape of the events of [_handle_tool_execution]

    [handle_trace resp base round evs res]: entered in round [round]
    with the response [resp] and the parameters [base], the handler
    makes the outbound calls [evs] and ends with [res]. *)
Inductive handle_trace
  : Message -> ApiParams -> nat -> list Event -> pyresult string -> Prop :=
| HT_stop : forall resp base round outs r,
    length outs = length (tool_uses (content resp)) ->
    (forall m, r = Ok m ->
               is_tool_use m && include_tools_of round outs = false) ->
    handle_trace resp base round
      (events_of (tool_uses (content resp)) outs
         ++ [EvCreate (followup_of base round resp outs) r])
      (final_result r)
| HT_again : forall resp base round outs m rest res,
    length outs = length (tool_uses (content resp)) ->
    is_tool_use m && include_tools_of round outs = true ->
    handle_trace m (updated_of base resp outs) (S round) rest res ->
    handle_trace resp base round
      (events_of (tool_uses (content resp)) outs
         ++ EvCreate (followup_of base round resp outs) (Ok m) :: rest)
      res.

(** What the log shows around a tool execution that raised [e], with
    [pre] the events before it and [post] the events after it: the call
    belongs to a tool-use block of the latest LLM answer; the rest of
    the turn's calls follow, then one LLM call without tool definitions
    whose last message holds the error text under the block's id; that
    call decides the result [res]. *)
Definition raise_contained (pre : list Event) (name : string)
           (input : kwargs) (e : PyException) (post : list Event)
           (res : pyresult string) : Prop :=
  exists hist p' resp before after p r id rs msgs,
    pre = hist ++ EvCreate p' (Ok resp) :: before /\
    forallb is_execute before = true /\
    nth_error (tool_uses (content resp)) (length before)
      = Some (id, name, input) /\
    post = after ++ [EvCreate p r] /\
    forallb is_execute after = true /\
    tools p = None /\
    res = final_result r /\
    messages p = msgs ++ [mkChat "user" (CToolResults rs)] /\
    nth_error rs (length before)
      = Some (mkToolResult "tool_result" id
                           (TOOL_ERROR_PREFIX ++ exc_str e)%string).

End Generator.

Arguments EvExecute {Schema} name input r.
Arguments EvCreate {Schema} p r.

(* ===================================================================== *)
(** ** A scripted world, in the manner of the test-suite's mocks *)
(* ===================================================================== *)

Module Script.

(** The mocked client answers from a fixed list of outcomes
    ([side_effect = [...]]); an exhausted script raises. *)
Definition World : Type := list (pyresult Message).

Definition StopIteration : PyException := mkExc "StopIteration" EmptyString.

Definition messages_create {Schema} (_ : ApiParams Schema) (w : World)
  : pyresult Message * World :=
  match w with
  | [] => (Raise StopIteration, [])
  | r :: w' => (r, w')
  end.

(** A tool manager is a function of the tool name and arguments. *)
Definition ToolManager : Type := string -> kwargs -> pyresult string.

Definition execute_tool (tm : ToolManager) (name : string) (input : kwargs)
           (w : World) : pyresult string * World :=
  (tm name input, w).

(** Tool definitions carry their name only. *)
Definition Schema : Type := string.

Definition generate (model : string) (query : string)
           (history : option string) (tools_arg : option (list Schema))
           (tm : option ToolManager) (script : World) :=
  generate_response (@messages_create Schema) execute_tool model
                    query history tools_arg tm (mkRun script []).

Definition search_def : Schema := "search_course_content".

Definition text_msg (t : string) : Message :=
  mkMessage [TextBlock t] "end_turn".
Definition tool_msg (id : string) (q : string) : Message :=
  mkMessage [ToolUseBlock id "search_course_content" [("query", q)]]
            "tool_use".

Definition tm_ok : ToolManager := fun _ _ => Ok "search results".

Definition db_failure : PyException :=
  mkExc "Exception" "DB connection failed".

(** Raises for the query ["fail"], answers every other one. *)
Definition tm_flaky : ToolManager :=
  fun _ input =>
    match input with
    | [(_, q)] => if String.eqb q "fail" then Raise db_failure
                  else Ok "search results"
    | _ => Ok "search results"
    end.

Definition no_params : ApiParams Schema :=
  mkParams EmptyString 0 0 [] EmptyString None None.

(** The parameters of the [i]-th LLM call of a log. *)
Definition create_at (l : list (Event Schema)) (i : nat) : ApiParams Schema :=
  nth i (create_params l) no_params.




(** One turn with two tool calls, the second of which raises; the
    model then answers in text. *)
Definition two_calls_msg : Message :=
  mkMessage [TextBlock "Comparing both.";
             ToolUseBlock "t1" "search_course_content" [("query", "q1")];
             ToolUseBlock "t2" "search_course_content" [("query", "fail")]]
            "tool_use".

Definition fault_run :=
  generate "claude" "search" None (Some [search_def]) (Some tm_flaky)
           [Ok two_calls_msg; Ok (text_msg "Sorry, I encountered an issue")].

(** A follow-up answer without any text block. *)
Definition mute_run :=
  generate "claude" "search" None (Some [search_def]) (Some tm_ok)
           [Ok (tool_msg "t1" "q1"); Ok (mkMessage [] "end_turn")].

Definition direct_run :=
  generate "claude" "hello" None (Some [search_def]) (Some tm_ok)
           [Ok (text_msg "Direct answer")].

(** The runs of [TestSequentialToolCalling]. *)
Definition single_round_run :=
  generate "claude" "What is AI?" None (Some [search_def]) (Some tm_ok)
           [Ok (tool_msg "t1" "AI"); Ok (text_msg "AI is great")].

Definition two_rounds_run :=
  generate "claude" "complex query" None (Some [search_def]) (Some tm_ok)
           [Ok (tool_msg "t1" "q1"); Ok (tool_msg "t2" "q2");
            Ok (text_msg "final answer")].

Definition user_params (q : string) : ApiParams Schema :=
  mkParams "claude" 0 800 [mkChat "user" (CText q)] SYSTEM_PROMPT
           (Some [search_def]) (Some "auto").

End Script.

(* ===================================================================== *)
(** ** The vector store's filter builder and result container *)
(* ===================================================================== *)

Module VectorStore.

(** Scalar metadata values. *)
Inductive Value : Type :=
| VStr (s : string)
| VInt (n : Z).

(** A where-clause in the shape the tests compare against:
    [{field: v}] and [{"$and": [...]}]. *)
#[warnings="-register-all"]
Inductive Where : Type :=
| WEq  (field : string) (v : Value)
| WAnd (clauses : list Where).

(** Modelled from the spec: [VectorStore._build_filter] lives in
    [backend/vector_store.py], which is not among the sources; only
    [TestBuildFilter] is.  No filter if neither argument is given, one
    equality filter if exactly one is given, the conjunction of both
    equality filters if both are given. *)
Definition build_filter (course_title : option string)
           (lesson_number : option Z) : option Where :=
  match course_title, lesson_number with
  | None, None => None
  | Some c, None => Some (WEq "course_title" (VStr c))
  | None, Some n => Some (WEq "lesson_number" (VInt n))
  | Some c, Some n =>
      Some (WAnd [WEq "course_title" (VStr c); WEq "lesson_number" (VInt n)])
  end.

Definition Metadata : Type := list (string * Value).

(** Modelled from the spec: the [SearchResults] container of
    [backend/vector_store.py] (not among the sources; [TestSearchResults]
    is): three parallel sequences and an optional error string. *)
Record SearchResults : Type := mkResults {
  documents : list string;
  metadata  : list Metadata;
  distances : list Q;
  error     : option string
}.

(** Modelled from the spec: [SearchResults.empty(error_msg)], the result
    of a failed search: empty sequences, error set. *)
Definition empty (error_msg : string) : SearchResults :=
  mkResults [] [] [] (Some error_msg).

(** Modelled from the spec: [SearchResults.from_chroma], the result of a
    search that reached the index: the first row of each column of the
    raw answer, or nothing when the column has no row; no error. *)
Definition from_chroma (docs : list (list string))
           (metas : list (list Metadata)) (dists : list (list Q))
  : SearchResults :=
  mkResults (hd [] docs) (hd [] metas) (hd [] dists) None.

(** Modelled from the spec: the emptiness check [is_empty]. *)
Definition is_empty (r : SearchResults) : bool :=
  Nat.eqb (length (documents r)) 0.



End VectorStore.

(* ===================================================================== *)
(** ** Whole queries: the first call and the history *)
(* ===================================================================== *)

Section Queries.

Variable Schema : Type.

(** The system text of a query ([generate_response], lines 64-68). *)
Definition system_content (conversation_history : option string) : string :=
  match conversation_history with
  | Some h =>
      if String.eqb h EmptyString then SYSTEM_PROMPT
      else (SYSTEM_PROMPT ++ nl ++ nl ++ "Previous conversation:" ++ nl ++ h)%string
  | None => SYSTEM_PROMPT
  end.

(** The keyword arguments of the first LLM call (lines 71-80). *)
Definition first_params (self_model query : string)
           (conversation_history : option string)
           (tools_arg : option (list Schema)) : ApiParams Schema :=
  match tools_arg with
  | Some (t :: ts) =>
      mkParams self_model 0 800 [mkChat "user" (CText query)]
               (system_content conversation_history)
               (Some (t :: ts)) (Some "auto")
  | _ =>
      mkParams self_model 0 800 [mkChat "user" (CText query)]
               (system_content conversation_history) None None
  end.

(** A tool execution that raised. *)
Definition event_raised (e : Event Schema) : bool :=
  match e with
  | EvExecute _ _ (Raise _) => true
  | _ => false
  end.

(** The roles of a history after [k] tool rounds. *)
Fixpoint alternating (k : nat) : list string :=
  match k with
  | 0 => ["user"]
  | S k' => alternating k' ++ ["assistant"; "user"]
  end.

(** A tool request that names at least one tool. *)
Definition names_a_tool (e : Event Schema) : bool :=
  match e with
  | EvCreate _ (Ok m) =>
      negb (is_tool_use m)
      || match tool_uses (content m) with [] => false | _ :: _ => true end
  | _ => true
  end.

End Queries.


(** Further scripted runs. *)
Module Scenarios.
Import Script.

(** A query with a prior conversation, one tool round. *)
Definition history_run :=
  generate "claude" "And lesson 2?" (Some "User: hi") (Some [search_def])
           (Some tm_ok)
           [Ok (tool_msg "t1" "lesson 2"); Ok (text_msg "Lesson 2 is next")].

(** A bare tool request answered although no tool manager was passed. *)
Definition bare_request_run :=
  generate "claude" "What is AI?" None (Some [search_def]) None
           [Ok (tool_msg "t1" "AI")].

(** The answer at the cap asks for a tool again and adds some text. *)
Definition insisting_msg : Message :=
  mkMessage [ToolUseBlock "t3" "search_course_content" [("query", "q3")];
             TextBlock "Partial answer"]
            "tool_use".

Definition capped_text_run :=
  generate "claude" "complex query" None (Some [search_def]) (Some tm_ok)
           [Ok (tool_msg "t1" "q1"); Ok (tool_msg "t2" "q2");
            Ok insisting_msg].

(** A tool request that names no tool. *)
Definition silent_request_msg : Message :=
  mkMessage [TextBlock "Let me think."] "tool_use".

End Scenarios.

(* ===================================================================== *)
(** ** The generator when a tool may raise any exception *)
(* ===================================================================== *)

(** [_handle_tool_execution] and [generate_response] once more, line by
    line as in Section [Generator], with the handler of line 122
    deciding by the class of the exception: [run_tools_any],
    [handle_tool_execution_any] and [generate_response_any] run the
    tool loop over [try_except_Exception is_Exception]. *)

Section AnyException.

Variable Schema : Type.
Variable World : Type.
Variable messages_create :
  ApiParams Schema -> World -> pyresult Message * World.
Variable ToolManager : Type.
Variable execute_tool :
  ToolManager -> string -> kwargs -> World -> pyresult string * World.
Variable self_model : string.

(** [isinstance(e, Exception)]: false for [KeyboardInterrupt],
    [SystemExit], [GeneratorExit] and every other class that derives
    from [BaseException] only. *)
Variable is_Exception : PyException -> bool.

(** The tool loop (lines 113-130). *)
Fixpoint run_tools_any (tm : ToolManager) (blocks : list ContentBlock)
         (tool_results : list ToolResult) (tool_error : bool)
  : M Schema World (list ToolResult * bool) :=
  match blocks with
  | [] => ret (tool_results, tool_error)
  | content_block :: rest =>
      match content_block with
      | ToolUseBlock id name input =>
          bind (try_except_Exception is_Exception
                  (call_execute_tool execute_tool tm name input))
               (fun r =>
                  let '(tool_result, tool_error') :=
                    match r with
                    | Ok s => (s, tool_error)
                    | Raise e =>
                        ((TOOL_ERROR_PREFIX ++ exc_str e)%string, true)
                    end in
                  run_tools_any tm rest
                    (tool_results ++ [mkToolResult "tool_result" id tool_result])
                    tool_error')
      | _ => run_tools_any tm rest tool_results tool_error
      end
  end.

(** [_handle_tool_execution] *)
Equations? handle_tool_execution_any (initial_response : Message)
           (base : ApiParams Schema) (tool_manager : ToolManager)
           (round : nat) (s : Run Schema World)
  : pyresult string * Run Schema World
  by wf (MAX_TOOL_ROUNDS - round) lt :=
handle_tool_execution_any initial_response base tool_manager round s :=
 (let messages0 :=
    messages base ++ [mkChat "assistant" (CBlocks (content initial_response))] in
  bind (run_tools_any tool_manager (content initial_response) [] false)
    (fun results =>
  let tool_results := fst results in
  let tool_error := snd results in
  let messages1 :=
    match tool_results with
    | [] => messages0
    | _ :: _ => messages0 ++ [mkChat "user" (CToolResults tool_results)]
    end in
  let include_tools := (round <? MAX_TOOL_ROUNDS) && negb tool_error in
  let followup_params :=
    match include_tools, tools base with
    | true, Some ts =>
        mkParams self_model 0 800 messages1 (system base) (Some ts) (Some "auto")
    | _, _ => base_params Schema self_model messages1 (system base)
    end in
  bind (call_create messages_create followup_params)
    (fun followup_response =>
  match bool_dec (is_tool_use followup_response && include_tools) true with
  | left _ =>
      let updated_params :=
        mkParams (model base) (temperature base) (max_tokens base)
                 messages1 (system base) (tools base) (tool_choice base) in
      fun s' => handle_tool_execution_any followup_response updated_params
                                          tool_manager (S round) s'
  | right _ =>
      match first_text (content followup_response) with
      | Some t => ret t
      | None => ret FALLBACK
      end
  end))) s.
Proof.
  apply andb_prop in e as [_ e]. subst include_tools.
  apply andb_prop in e as [e _]. apply Nat.ltb_lt in e.
  unfold MAX_TOOL_ROUNDS in e. destruct round as [|[|?]]; simpl; lia.
Qed.

(** [generate_response] *)
Definition generate_response_any (query : string)
           (conversation_history : option string)
           (tools_arg : option (list Schema))
           (tool_manager : option ToolManager) : M Schema World string :=
  let system_content :=
    if truthy_str conversation_history
    then (SYSTEM_PROMPT ++ nl ++ nl ++ "Previous conversation:" ++ nl
          ++ match conversation_history with
             | Some h => h
             | None => EmptyString
             end)%string
    else SYSTEM_PROMPT in
  let api_params0 :=
    base_params Schema self_model [mkChat "user" (CText query)] system_content in
  let api_params :=
    if truthy_list tools_arg
    then mkParams (model api_params0) (temperature api_params0)
                  (max_tokens api_params0) (messages api_params0)
                  (system api_params0) tools_arg (Some "auto")
    else api_params0 in
  bind (call_create messages_create api_params)
       (fun response =>
          match is_tool_use response, tool_manager with
          | true, Some tm =>
              handle_tool_execution_any response api_params tm 1
          | _, _ => first_block_text (content response)
          end).

(** A tool execution whose exception is not caught. *)
Definition escapes (e : Event Schema) : bool :=
  match e with
  | EvExecute _ _ (Raise x) => negb (is_Exception x)
  | _ => false
  end.

(** The events up to and including the first one that escapes. *)
Fixpoint cut (l : list (Event Schema)) : list (Event Schema) :=
  match l with
  | [] => []
  | e :: l' => if escapes e then [e] else e :: cut l'
  end.

(** The exception of the first event that escapes. *)
Fixpoint first_escape (l : list (Event Schema)) : option PyException :=
  match l with
  | [] => None
  | e :: l' =>
      match e with
      | EvExecute _ _ (Raise x) =>
          if is_Exception x then first_escape l' else Some x
      | _ => first_escape l'
      end
  end.

End AnyException.

(** The classes of the standard library that derive from
    [BaseException] and not from [Exception]. *)
Module Python.

Definition outside_Exception : list string :=
  ["KeyboardInterrupt"; "SystemExit"; "GeneratorExit"].

Definition is_Exception (e : PyException) : bool :=
  negb (existsb (String.eqb (exc_class e)) outside_Exception).

Definition KeyboardInterrupt : PyException :=
  mkExc "KeyboardInterrupt" EmptyString.

(** The search is interrupted from the keyboard. *)
Definition tm_interrupted : Script.ToolManager :=
  fun _ _ => Raise KeyboardInterrupt.

(** Raises an [Exception] for the query ["fail"] and is interrupted
    for the query ["slow"]. *)
Definition tm_mixed : Script.ToolManager :=
  fun _ input =>
    match input with
    | [(_, q)] =>
        if String.eqb q "fail" then Raise Script.db_failure
        else if String.eqb q "slow" then Raise KeyboardInterrupt
        else Ok "search results"
    | _ => Ok "search results"
    end.

Definition generate_any (query : string) (tools_arg : option (list Script.Schema))
           (tm : option Script.ToolManager) (script : Script.World) :=
  generate_response_any (@Script.messages_create Script.Schema)
                        Script.execute_tool "claude" is_Exception
                        query None tools_arg tm (mkRun script []).

Definition interrupted_run :=
  generate_any "What is AI?" (Some [Script.search_def]) (Some tm_interrupted)
               [Ok (Script.tool_msg "t1" "AI"); Ok (Script.text_msg "unused")].

Definition caught_run :=
  generate_any "search" (Some [Script.search_def]) (Some tm_mixed)
               [Ok Script.two_calls_msg;
                Ok (Script.text_msg "Sorry, I encountered an issue")].

(** One turn with two tool calls: the first raises an [Exception], the
    second is interrupted. *)
Definition fail_then_slow_msg : Message :=
  mkMessage [ToolUseBlock "t1" "search_course_content" [("query", "fail")];
             ToolUseBlock "t2" "search_course_content" [("query", "slow")]]
            "tool_use".

Definition late_interrupt_run :=
  generate_any "search" (Some [Script.search_def]) (Some tm_mixed)
               [Ok fail_then_slow_msg; Ok (Script.text_msg "unused")].

End Python.

(* ===================================================================== *)
(** ** Correctness of the generator *)
(* ===================================================================== *)

Arguments events_of {Schema} uses outs.
Arguments event_of {Schema} uo.

Section Correctness.

Variable Schema : Type.
Variable World : Type.
Variable messages_create :
  ApiParams Schema -> World -> pyresult Message * World.
Variable ToolManager : Type.
Variable execute_tool :
  ToolManager -> string -> kwargs -> World -> pyresult string * World.
Variable self_model : string.

Local Abbreviation handle :=
  (handle_tool_execution messages_create execute_tool self_model).
Local Abbreviation generate :=
  (generate_response messages_create execute_tool self_model).
Local Abbreviation trace := (@handle_trace Schema self_model).
Local Abbreviation followup := (@followup_of Schema self_model).
Local Abbreviation RunT := (Run Schema World).

(** *** The tool loop *)

Lemma run_tools_spec (tm : ToolManager) (blocks : list ContentBlock) :
  forall (acc : list ToolResult) (err : bool) (s : RunT),
    run_tools execute_tool tm blocks acc err s =
    (Ok (acc ++ results_of (tool_uses blocks)
                   (fst (exec_seq execute_tool tm (tool_uses blocks) (world s))),
         err || existsb (@raised string)
                  (fst (exec_seq execute_tool tm (tool_uses blocks) (world s)))),
     mkRun (snd (exec_seq execute_tool tm (tool_uses blocks) (world s)))
           (log s ++ events_of (tool_uses blocks)
                (fst (exec_seq execute_tool tm (tool_uses blocks) (world s))))).
Proof.
  induction blocks as [|b bs IH]; intros acc err s.
  - destruct s as [w l]. cbn. rewrite !app_nil_r, orb_false_r. reflexivity.
  - destruct b as [t|id name input|t]; cbn [run_tools tool_uses flat_map app].
    + apply IH.
    + unfold bind, try_except, try_except_Exception, call_execute_tool.
      change (flat_map _ bs) with (tool_uses bs).
      cbn [exec_seq].
      destruct (execute_tool tm name input (world s)) as [r w1] eqn:E1.
      destruct (exec_seq execute_tool tm (tool_uses bs) w1) as [rs w2] eqn:E2.
      cbn [fst snd].
      destruct r as [out|e]; rewrite IH; cbn [world log]; rewrite E2;
        cbn [fst snd]; unfold results_of, events_of;
        cbn [combine map result_of event_of existsb raised is_ok negb rendered];
        rewrite <- !app_assoc; cbn [app];
        rewrite ?orb_true_r, ?orb_false_l, ?orb_true_l; reflexivity.
    + apply IH.
Qed.

Lemma exec_seq_length (tm : ToolManager) (uses : list ToolUse) :
  forall w, length (fst (exec_seq execute_tool tm uses w)) = length uses.
Proof.
  induction uses as [|[[id name] input] us IH]; intros w; cbn; [reflexivity|].
  destruct (execute_tool tm name input w) as [r w1].
  specialize (IH w1).
  destruct (exec_seq execute_tool tm us w1) as [rs w2]. cbn in *. lia.
Qed.

(** *** One round of [_handle_tool_execution] *)

Lemma handle_round (resp : Message) (base : ApiParams Schema)
      (tm : ToolManager) (round : nat) (s : RunT) :
  let uses := tool_uses (content resp) in
  let outs := fst (exec_seq execute_tool tm uses (world s)) in
  let w1 := snd (exec_seq execute_tool tm uses (world s)) in
  let p := followup base round resp outs in
  let r := fst (messages_create p w1) in
  let s2 := mkRun (snd (messages_create p w1))
                  (log s ++ events_of uses outs ++ [EvCreate p r]) in
  handle resp base tm round s =
  match r with
  | Raise e => (Raise e, s2)
  | Ok m =>
      if is_tool_use m && include_tools_of round outs
      then handle m (updated_of base resp outs) tm (S round) s2
      else (Ok (final_text m), s2)
  end.
Proof.
  intros uses outs w1 p r s2.
  rewrite handle_tool_execution_equation_1.
  unfold bind at 1. rewrite run_tools_spec. cbn [app].
  fold uses. fold outs. fold w1. rewrite orb_false_l.
  unfold bind, call_create. cbn [world log].
  match goal with
  | |- context [messages_create ?q w1] =>
      replace q with p
        by (unfold p, followup_of, round_messages, include_tools_of;
            fold uses; destruct (results_of uses outs); reflexivity)
  end.
  subst s2 r. rewrite (app_assoc (log s)).
  destruct (messages_create p w1) as [[m|e] w2]; cbn [fst snd]; [|reflexivity].
  change ((round <? MAX_TOOL_ROUNDS) && negb (existsb (@raised string) outs))
    with (include_tools_of round outs).
  destruct (bool_dec (is_tool_use m && include_tools_of round outs) true)
    as [Hc|Hc].
  - rewrite Hc. f_equal.
    unfold updated_of, round_messages. fold uses.
    destruct (results_of uses outs); reflexivity.
  - apply not_true_is_false in Hc. rewrite Hc.
    unfold final_text, ret. destruct (first_text (content m)); reflexivity.
Qed.

Lemma handle_has_trace_aux (n : nat) :
  forall round resp base tm (s : RunT),
    MAX_TOOL_ROUNDS - round <= n ->
    exists evs,
      log (snd (handle resp base tm round s)) = log s ++ evs /\
      trace resp base round evs (fst (handle resp base tm round s)).
Proof.
  induction n as [|n IH]; intros round resp base tm s Hn;
    rewrite handle_round;
    set (uses := tool_uses (content resp));
    set (outs := fst (exec_seq execute_tool tm uses (world s)));
    set (w1 := snd (exec_seq execute_tool tm uses (world s)));
    set (p := followup base round resp outs);
    destruct (messages_create p w1) as [[m|e] w2] eqn:Hc; cbn [fst snd];
    assert (Hlen : length outs = length uses) by apply exec_seq_length.
  - assert (Hinc : include_tools_of round outs = false).
    { unfold include_tools_of.
      assert ((round <? MAX_TOOL_ROUNDS) = false) as -> by (apply Nat.ltb_ge; lia).
      reflexivity. }
    rewrite Hinc, andb_false_r. cbn [fst snd log].
    eexists; split; [reflexivity|].
    apply (@HT_stop Schema self_model resp base round outs (Ok m)); [exact Hlen|].
    intros m' Hm'. rewrite Hinc. apply andb_false_r.
  - cbn [log]. eexists; split; [reflexivity|].
    apply (@HT_stop Schema self_model resp base round outs (Raise e)); [exact Hlen|].
    intros m' Hm'. discriminate.
  - destruct (is_tool_use m && include_tools_of round outs) eqn:Hgo.
    + destruct (IH (S round) m (updated_of base resp outs) tm
                   (mkRun w2 (log s ++ events_of uses outs ++ [EvCreate p (Ok m)])))
        as [rest [Hlog Htr]].
      { apply andb_prop in Hgo as [_ Hgo]. unfold include_tools_of in Hgo.
        apply andb_prop in Hgo as [Hgo _]. apply Nat.ltb_lt in Hgo. lia. }
      cbn [log] in Hlog. rewrite Hlog.
      exists (events_of uses outs ++ EvCreate p (Ok m) :: rest). split.
      * rewrite <- !app_assoc. reflexivity.
      * apply HT_again; assumption.
    + cbn [fst snd log]. eexists; split; [reflexivity|].
      apply (@HT_stop Schema self_model resp base round outs (Ok m)); [exact Hlen|].
      intros m' Hm'. injection Hm' as <-. exact Hgo.
  - cbn [log]. eexists; split; [reflexivity|].
    apply (@HT_stop Schema self_model resp base round outs (Raise e)); [exact Hlen|].
    intros m' Hm'. discriminate.
Qed.

(** The handler always returns, and its outbound calls have the shape
    of [handle_trace]. *)
Lemma handle_has_trace (round : nat) (resp : Message)
      (base : ApiParams Schema) (tm : ToolManager) (s : RunT) :
  exists evs,
    log (snd (handle resp base tm round s)) = log s ++ evs /\
    trace resp base round evs (fst (handle resp base tm round s)).
Proof. exact (@handle_has_trace_aux _ round resp base tm s (le_n _)). Qed.

(** *** [generate_response]: either the direct return or the handler *)

Lemma generate_cases (query : string) (history : option string)
      (tl : option (list Schema)) (tm : option ToolManager) (w : World) :
  exists p0 : ApiParams Schema,
    let r0 := fst (messages_create p0 w) in
    let s1 := mkRun (snd (messages_create p0 w)) [EvCreate p0 r0] in
    let run := generate query history tl tm (mkRun w []) in
    (truthy_str history = false -> system p0 = SYSTEM_PROMPT) /\
    messages p0 = [mkChat "user" (CText query)] /\
    ((exists m t,
         r0 = Ok m /\ is_tool_use m = true /\ tm = Some t /\
         run = handle m p0 t 1 s1)
     \/
     ((forall m, r0 = Ok m -> is_tool_use m && truthy_obj tm = false) /\
      run = (direct_result r0, s1))).
Proof.
  unfold generate_response.
  match goal with
  | |- context [call_create _ ?q] => set (p0 := q)
  end.
  exists p0. cbn zeta.
  split; [|split].
  - subst p0. intros ->. destruct (truthy_list tl); reflexivity.
  - subst p0. destruct (truthy_list tl); reflexivity.
  - unfold bind, call_create. cbn [world log app].
    destruct (messages_create p0 w) as [[m|e] w1] eqn:Hc; cbn [fst snd].
    + destruct (is_tool_use m) eqn:Htu; [destruct tm as [t|]|].
      * left. exists m, t. auto.
      * right. split; [intros m' _; apply andb_false_r|].
        cbn [direct_result]. unfold first_block_text, raise, ret.
        destruct (content m) as [|[t|i n a|t] bs]; reflexivity.
      * right.
        split; [intros m' Hm'; injection Hm' as <-; rewrite Htu; reflexivity|].
        cbn [direct_result]. unfold first_block_text, raise, ret.
        destruct (content m) as [|[t|i n a|t] bs]; reflexivity.
    + right. split; [intros m' Hm'; discriminate|]. reflexivity.
Qed.

Lemma generate_shape (query : string) (history : option string)
      (tl : option (list Schema)) (tm : option ToolManager) (w : World) :
  exists p0 : ApiParams Schema,
    let r0 := fst (messages_create p0 w) in
    let run := generate query history tl tm (mkRun w []) in
    (truthy_str history = false -> system p0 = SYSTEM_PROMPT) /\
    ((exists m t evs,
         r0 = Ok m /\ is_tool_use m = true /\ tm = Some t /\
         log (snd run) = EvCreate p0 r0 :: evs /\
         trace m p0 1 evs (fst run))
     \/
     ((forall m, r0 = Ok m -> is_tool_use m && truthy_obj tm = false) /\
      log (snd run) = [EvCreate p0 r0] /\
      fst run = direct_result r0)).
Proof.
  destruct (generate_cases query history tl tm w)
    as [p0 [Hsys [_ [[m [t [Hr [Htu [Htm Hrun]]]]]|[Hno Hrun]]]]];
    exists p0; cbn zeta; (split; [exact Hsys|]).
  - left. exists m, t.
    destruct (handle_has_trace 1 m p0 t
                (mkRun (snd (messages_create p0 w))
                       [EvCreate p0 (fst (messages_create p0 w))]))
      as [evs [Hlog Htr]].
    exists evs. rewrite Hrun. cbn [log app] in Hlog. auto.
  - right. rewrite Hrun. auto.
Qed.

(** *** Facts about the events of one round *)

Lemma create_params_app (l1 l2 : list (Event Schema)) :
  create_params (l1 ++ l2) = create_params l1 ++ create_params l2.
Proof. apply flat_map_app. Qed.

Lemma events_of_execute (uses : list ToolUse) (outs : list (pyresult string)) :
  forallb (@is_execute Schema) (events_of uses outs) = true.
Proof.
  unfold events_of. apply forallb_forall. intros e He.
  apply in_map_iff in He as [[[[id name] input] r] [<- _]]. reflexivity.
Qed.

Lemma create_params_executes (l : list (Event Schema)) :
  forallb (@is_execute Schema) l = true -> create_params l = [].
Proof.
  induction l as [|[p r|n a r] l IH]; cbn; intros H;
    [reflexivity|discriminate|auto].
Qed.

Lemma followup_tools base round resp outs :
  tools (followup base round resp outs) =
  if include_tools_of round outs then tools base else None.
Proof.
  unfold followup_of.
  destruct (include_tools_of round outs); [|reflexivity].
  destruct (tools base); reflexivity.
Qed.

Lemma followup_system base round resp outs :
  system (followup base round resp outs) = system base.
Proof.
  unfold followup_of.
  destruct (include_tools_of round outs); [|reflexivity].
  destruct (tools base); reflexivity.
Qed.

Lemma followup_messages base round resp outs :
  messages (followup base round resp outs) = round_messages base resp outs.
Proof.
  unfold followup_of.
  destruct (include_tools_of round outs); [|reflexivity].
  destruct (tools base); reflexivity.
Qed.

Lemma include_tools_round round outs :
  include_tools_of round outs = true -> round < MAX_TOOL_ROUNDS.
Proof.
  unfold include_tools_of. intros [H _]%andb_prop. now apply Nat.ltb_lt.
Qed.

(** *** Consequences of the trace shape *)

(** At most [MAX_TOOL_ROUNDS - round + 1] LLM calls, of which at most
    [MAX_TOOL_ROUNDS - round] carry the tool definitions. *)
Lemma trace_calls_bound resp base round evs res :
  trace resp base round evs res ->
  length (create_params evs) <= S (MAX_TOOL_ROUNDS - round) /\
  length (filter (@has_tools Schema) (create_params evs))
    <= MAX_TOOL_ROUNDS - round.
Proof.
  induction 1 as [resp base round outs r Hlen Hstop
                 |resp base round outs m rest res Hlen Hgo Htr IH];
    rewrite create_params_app,
            (create_params_executes _ (events_of_execute _ _));
    cbn [app create_params flat_map filter length].
  - split; [lia|].
    unfold has_tools. rewrite followup_tools.
    destruct (include_tools_of round outs) eqn:Hinc; [|cbn; lia].
    apply include_tools_round in Hinc.
    assert (Hk : 1 <= MAX_TOOL_ROUNDS - round) by lia.
    revert Hk. generalize (MAX_TOOL_ROUNDS - round). intros k Hk.
    destruct (tools base); cbn; lia.
  - apply andb_prop in Hgo as [_ Hinc]. apply include_tools_round in Hinc.
    destruct IH as [IH1 IH2].
    change (flat_map _ rest) with (create_params rest).
    assert (Hk : MAX_TOOL_ROUNDS - round = S (MAX_TOOL_ROUNDS - S round)) by lia.
    rewrite Hk. revert IH1 IH2. generalize (MAX_TOOL_ROUNDS - S round).
    intros k IH1 IH2.
    split; [lia|].
    destruct (has_tools (followup base round resp outs)); cbn [length]; lia.
Qed.

(** The handler's last outbound call is an LLM call, and its outcome
    decides the result. *)
Lemma trace_result resp base round evs res :
  trace resp base round evs res ->
  exists pre p r, evs = pre ++ [EvCreate p r] /\ res = final_result r.
Proof.
  induction 1 as [resp base round outs r Hlen Hstop
                 |resp base round outs m rest res Hlen Hgo Htr IH].
  - eauto.
  - destruct IH as [pre [p [r [-> ->]]]].
    exists (events_of (tool_uses (content resp)) outs
              ++ EvCreate (followup base round resp outs) (Ok m) :: pre), p, r.
    split; [|reflexivity]. rewrite <- app_assoc. reflexivity.
Qed.


(** Every LLM call of the handler carries the system text it was
    entered with. *)
Lemma trace_system resp base round evs res :
  trace resp base round evs res ->
  forall p, In p (create_params evs) -> system p = system base.
Proof.
  induction 1 as [resp base round outs r Hlen Hstop
                 |resp base round outs m rest res Hlen Hgo Htr IH];
    intros p;
    rewrite create_params_app,
            (create_params_executes _ (events_of_execute _ _));
    cbn [app create_params flat_map In].
  - intros [<-|[]]. apply followup_system.
  - intros [<-|Hin]; [apply followup_system|].
    apply (IH p Hin).
Qed.

(** *** A tool execution that raises *)

Lemma app_split_mid {A} (l1 l2 pre post : list A) (x : A) :
  l1 ++ l2 = pre ++ x :: post ->
  (exists mid, l1 = pre ++ x :: mid /\ post = mid ++ l2) \/
  (exists mid, pre = l1 ++ mid /\ l2 = mid ++ x :: post).
Proof.
  intros H. apply app_eq_app in H as [l [[H1 H2]|[H1 H2]]].
  - destruct l as [|y l].
    + right. exists []. rewrite app_nil_r in H1. cbn in H2.
      subst. rewrite app_nil_r. auto.
    + left. cbn in H2. injection H2 as <- ->. eauto.
  - right. eauto.
Qed.

Lemma nth_error_combine {A B} (l1 : list A) (l2 : list B) :
  forall i a b,
    nth_error (combine l1 l2) i = Some (a, b) ->
    nth_error l1 i = Some a /\ nth_error l2 i = Some b.
Proof.
  revert l2. induction l1 as [|x l1 IH]; intros [|y l2] [|i] a b; cbn;
    try discriminate.
  - intros [= <- <-]. auto.
  - apply IH.
Qed.

Lemma nth_error_mid {A} (before after : list A) (x : A) :
  nth_error (before ++ x :: after) (length before) = Some x.
Proof.
  rewrite nth_error_app2 by lia. rewrite Nat.sub_diag. reflexivity.
Qed.

Lemma events_of_nth uses outs before name input r after :
  @events_of Schema uses outs = before ++ EvExecute name input r :: after ->
  exists id,
    nth_error uses (length before) = Some (id, name, input) /\
    nth_error outs (length before) = Some r /\
    nth_error (results_of uses outs) (length before)
      = Some (mkToolResult "tool_result" id (rendered r)).
Proof.
  intros H.
  pose proof (nth_error_mid before after (EvExecute name input r)) as Hn.
  rewrite <- H in Hn. unfold events_of in Hn.
  rewrite nth_error_map in Hn.
  destruct (nth_error (combine uses outs) (length before))
    as [[[[id n'] a'] r']|] eqn:Hc; [|discriminate].
  cbn in Hn. injection Hn as -> -> ->.
  exists id. unfold results_of. rewrite nth_error_map, Hc.
  apply nth_error_combine in Hc as [H1 H2]. auto.
Qed.

Lemma nth_raised_existsb (outs : list (pyresult string)) i e :
  nth_error outs i = Some (Raise e) -> existsb (@raised string) outs = true.
Proof.
  intros H. apply existsb_exists. exists (Raise e).
  split; [eapply nth_error_In; eauto|reflexivity].
Qed.

Lemma trace_raise resp base round evs res :
  trace resp base round evs res ->
  forall p_in pre name input e post,
    EvCreate p_in (Ok resp) :: evs
      = pre ++ EvExecute name input (Raise e) :: post ->
    raise_contained pre name input e post res.
Proof.
  induction 1 as [resp base round outs r Hlen Hstop
                 |resp base round outs m rest res Hlen Hgo Htr IH];
    intros p_in pre name input e post Heq;
    (destruct pre as [|c pre']; [discriminate|]);
    cbn [app] in Heq; injection Heq as <- Heq;
    apply app_split_mid in Heq as [[mid [Hev Hpost]]|[mid [Hpre Hrest]]].
  - (* the raising call belongs to this, last, round *)
    pose proof (events_of_execute (tool_uses (content resp)) outs) as Hex.
    rewrite Hev, forallb_app in Hex. apply andb_prop in Hex as [Hb Ha].
    cbn [forallb is_execute andb] in Ha.
    apply events_of_nth in Hev as [id [Hu [Ho Hr]]].
    pose proof (nth_raised_existsb _ _ Ho) as Hraised.
    exists [], p_in, resp, pre', mid, (followup base round resp outs), r, id,
           (results_of (tool_uses (content resp)) outs),
           (messages base ++ [mkChat "assistant" (CBlocks (content resp))]).
    repeat split; try assumption; try reflexivity.
    + rewrite followup_tools. unfold include_tools_of.
      rewrite Hraised, andb_false_r. reflexivity.
    + rewrite followup_messages. unfold round_messages.
      destruct (results_of (tool_uses (content resp)) outs) eqn:Hrs;
        [destruct (length pre'); discriminate|reflexivity].
  - destruct mid as [|c mid]; [discriminate|].
    cbn in Hrest. injection Hrest as _ Hrest.
    destruct mid; discriminate.
  - (* a round that is followed by another one has no raising call *)
    apply events_of_nth in Hev as [id [_ [Ho _]]].
    apply nth_raised_existsb in Ho.
    apply andb_prop in Hgo as [_ Hinc]. unfold include_tools_of in Hinc.
    rewrite Ho, andb_false_r in Hinc. discriminate.
  - destruct (IH _ _ _ _ _ _ Hrest)
      as (hist & p' & resp' & before & after & p & r & id & rs & msgs
          & -> & Hb & Hu & -> & Ha & Ht & Hres & Hm & Hr).
    exists (EvCreate p_in (Ok resp)
              :: events_of (tool_uses (content resp)) outs ++ hist),
           p', resp', before, after, p, r, id, rs, msgs.
    repeat split; try assumption.
    rewrite Hpre. cbn [app]. rewrite <- app_assoc. reflexivity.
Qed.


(** *** The round cap *)

(** The two counting bounds hold for every run, whatever the LLM
    answers and whether or not a tool manager was passed. *)
Lemma calls_bound query history tl tm w :
  let run := generate query history tl tm (mkRun w []) in
  length (create_params (log (snd run))) <= MAX_TOOL_ROUNDS + 1 /\
  length (filter (@has_tools Schema) (create_params (log (snd run))))
    <= MAX_TOOL_ROUNDS.
Proof.
  cbn zeta.
  destruct (generate_shape query history tl tm w)
    as [p0 [_ [[m [t [evs [_ [_ [_ [Hlog Htr]]]]]]]|[_ [Hlog _]]]]];
    rewrite Hlog.
  - apply trace_calls_bound in Htr as [H1 H2].
    cbn [create_params flat_map app filter] in *.
    change (flat_map _ evs) with (create_params evs).
    unfold MAX_TOOL_ROUNDS in *. cbn [Nat.sub] in H1, H2.
    split; [cbn [length]; lia|].
    destruct (has_tools p0); cbn [length]; lia.
  - cbn. unfold MAX_TOOL_ROUNDS. destruct (has_tools p0); cbn; lia.
Qed.


(** *** Tool exceptions *)

Lemma generate_raise_contained query history tl tm w pre name input e post :
  let run := generate query history tl tm (mkRun w []) in
  log (snd run) = pre ++ EvExecute name input (Raise e) :: post ->
  raise_contained pre name input e post (fst run).
Proof.
  cbn zeta. intros Hsplit.
  destruct (generate_shape query history tl tm w)
    as [p0 [_ [[m [t [evs [Hr [_ [_ [Hlog Htr]]]]]]]|[_ [Hlog _]]]]];
    rewrite Hlog in Hsplit.
  - rewrite Hr in Hsplit. eapply trace_raise; eassumption.
  - destruct pre as [|c [|c' pre]]; discriminate.
Qed.


(** *** Several tool calls in one turn *)



(** *** The final answer *)

Lemma first_text_none (bs : list ContentBlock) :
  (forall b, In b bs -> hasattr_text b = false) -> first_text bs = None.
Proof.
  induction bs as [|b bs IH]; intros H; [reflexivity|].
  destruct b as [t|i n a|t]; cbn.
  - specialize (H (TextBlock t) (or_introl eq_refl)). discriminate.
  - apply IH. intros b Hb. apply H. right. exact Hb.
  - apply IH. intros b Hb. apply H. right. exact Hb.
Qed.

(** C7: when the last LLM call of a query is a follow-up call (not the
    first call) and its answer has no block with a [text] attribute,
    [generate_response] returns the fixed fallback string. *)
Theorem fallback_without_text query history tl tm w pre p m :
  let run := generate query history tl tm (mkRun w []) in
  log (snd run) = pre ++ [EvCreate p (Ok m)] ->
  pre <> [] ->
  (forall b, In b (content m) -> hasattr_text b = false) ->
  fst run
  = Ok "I was unable to generate a complete response. Please try rephrasing your question.".
Proof.
  cbn zeta. intros Hlast Hpre Hnotext.
  destruct (generate_shape query history tl tm w)
    as [p0 [_ [[m0 [t [evs [_ [_ [_ [Hlog Htr]]]]]]]|[_ [Hlog _]]]]];
    rewrite Hlog in Hlast.
  - destruct (trace_result Htr) as [pre' [p' [r' [-> Hres]]]].
    change (EvCreate p0 (fst (messages_create p0 w)) :: pre' ++ [EvCreate p' r'])
      with ((EvCreate p0 (fst (messages_create p0 w)) :: pre') ++ [EvCreate p' r'])
      in Hlast.
    apply app_inj_tail in Hlast as [_ Hlast]. injection Hlast as -> ->.
    rewrite Hres. cbn [final_result]. unfold final_text.
    rewrite (first_text_none _ Hnotext). reflexivity.
  - destruct pre as [|c [|c' pre]]; [congruence|discriminate|discriminate].
Qed.

(** *** The direct answer and the gate to tool handling *)

Lemma is_tool_use_iff (m : Message) :
  is_tool_use m = true <-> stop_reason m = "tool_use".
Proof. apply String.eqb_eq. Qed.


(** C8: when the first LLM answer does not have the stop reason
    ["tool_use"] and starts with a text block, [generate_response]
    returns that block's text, and the log of the query is that single
    LLM call: no further LLM call and no tool execution. *)
Theorem direct_answer query history tl tm w p m t rest :
  let run := generate query history tl tm (mkRun w []) in
  hd_error (log (snd run)) = Some (EvCreate p (Ok m)) ->
  stop_reason m <> "tool_use" ->
  content m = TextBlock t :: rest ->
  fst run = Ok t /\ log (snd run) = [EvCreate p (Ok m)].
Proof.
  cbn zeta. intros Hhd Hstop Hcontent.
  destruct (generate_shape query history tl tm w)
    as [p0 [_ [[m0 [t0 [evs [Hr [Htu [_ [Hlog _]]]]]]]|[_ [Hlog Hres]]]]];
    rewrite Hlog in *; cbn [hd_error] in Hhd; injection Hhd as -> Hr'.
  - rewrite Hr in Hr'. injection Hr' as ->.
    apply is_tool_use_iff in Htu. contradiction.
  - rewrite Hres, Hr'. cbn [direct_result]. rewrite Hcontent. auto.
Qed.


(** *** The conversation history *)

(** C10: the empty string as [conversation_history] gives the same run
    as no history; the system text of the first and of every LLM call
    is then exactly [SYSTEM_PROMPT]. *)
Theorem empty_history_is_none query tl tm (s : RunT) (w : World) :
  generate query (Some EmptyString) tl tm s = generate query None tl tm s /\
  (exists p r rest,
      log (snd (generate query (Some EmptyString) tl tm (mkRun w [])))
      = EvCreate p r :: rest /\ system p = SYSTEM_PROMPT) /\
  Forall (fun p => system p = SYSTEM_PROMPT)
         (create_params (log (snd (generate query (Some EmptyString) tl tm (mkRun w []))))).
Proof.
  split; [reflexivity|].
  destruct (generate_shape query (Some EmptyString) tl tm w)
    as [p0 [Hsys [[m [t [evs [_ [_ [_ [Hlog Htr]]]]]]]|[_ [Hlog _]]]]];
    specialize (Hsys eq_refl); rewrite Hlog.
  - split; [eauto|].
    cbn [create_params flat_map app].
    constructor; [exact Hsys|].
    apply Forall_forall. intros p Hin.
    rewrite <- Hsys. exact (trace_system Htr p Hin).
  - split; [eauto|]. cbn. constructor; [exact Hsys|constructor].
Qed.

End Correctness.

(* ===================================================================== *)
(** ** The scripted runs *)
(* ===================================================================== *)

Module ScriptFacts.
Import Script.

Local Abbreviation create := (@messages_create Schema).

(** [test_single_tool_round]: two LLM calls, one tool execution with
    [query="AI"], the final text returned. *)
Example single_round_run_calls :
  fst single_round_run = Ok "AI is great" /\
  length (create_params (log (snd single_round_run))) = 2 /\
  filter (@is_execute Schema) (log (snd single_round_run))
  = [EvExecute "search_course_content" [("query", "AI")]
               (Ok "search results")].
Proof. repeat split. Qed.

(** [test_two_sequential_tool_rounds], [test_max_rounds_strips_tools]
    and [test_message_history_preserved_across_rounds]. *)
Example two_rounds_run_calls :
  fst two_rounds_run = Ok "final answer" /\
  map (@has_tools Schema) (create_params (log (snd two_rounds_run)))
  = [true; true; false] /\
  length (filter (@is_execute Schema) (log (snd two_rounds_run))) = 2 /\
  map role (messages (create_at (log (snd two_rounds_run)) 2))
  = ["user"; "assistant"; "user"; "assistant"; "user"].
Proof. repeat split. Qed.

(** [test_tool_exception_stops_chain]: the error text reaches the LLM
    and the follow-up call has no tools. *)
Example fault_run_calls :
  fst fault_run = Ok "Sorry, I encountered an issue" /\
  map (@has_tools Schema) (create_params (log (snd fault_run)))
  = [true; false] /\
  nth_error (messages (create_at (log (snd fault_run)) 1)) 2
  = Some (mkChat "user"
            (CToolResults
               [mkToolResult "tool_result" "t1" "search results";
                mkToolResult "tool_result" "t2"
                  "Tool execution error: DB connection failed"])).
Proof. repeat split. Qed.





Lemma fallback_without_text_mute_run :
  log (snd mute_run)
  = removelast (log (snd mute_run))
      ++ [EvCreate (create_at (log (snd mute_run)) 1)
                   (Ok (mkMessage [] "end_turn"))] /\
  removelast (log (snd mute_run)) <> [] /\
  (forall b, In b (content (mkMessage [] "end_turn")) ->
             hasattr_text b = false) /\
  fst mute_run
  = Ok "I was unable to generate a complete response. Please try rephrasing your question.".
Proof.
  assert (H1 : log (snd mute_run)
               = removelast (log (snd mute_run))
                   ++ [EvCreate (create_at (log (snd mute_run)) 1)
                                (Ok (mkMessage [] "end_turn"))])
    by (vm_compute; reflexivity).
  assert (H2 : removelast (log (snd mute_run)) <> [])
    by (vm_compute; discriminate).
  assert (H3 : forall b, In b (content (mkMessage [] "end_turn")) ->
                         hasattr_text b = false)
    by (intros b []).
  split; [exact H1|]. split; [exact H2|]. split; [exact H3|].
  exact (@fallback_without_text _ _ create _ execute_tool
           "claude" "search" None (Some [search_def]) (Some tm_ok)
           _ _ _ _ H1 H2 H3).
Defined.

Lemma direct_answer_direct_run :
  hd_error (log (snd direct_run))
  = Some (EvCreate (create_at (log (snd direct_run)) 0)
                   (Ok (text_msg "Direct answer"))) /\
  stop_reason (text_msg "Direct answer") <> "tool_use" /\
  fst direct_run = Ok "Direct answer" /\
  log (snd direct_run)
  = [EvCreate (create_at (log (snd direct_run)) 0)
              (Ok (text_msg "Direct answer"))].
Proof.
  assert (H1 : hd_error (log (snd direct_run))
               = Some (EvCreate (create_at (log (snd direct_run)) 0)
                                (Ok (text_msg "Direct answer"))))
    by (vm_compute; reflexivity).
  assert (H2 : stop_reason (text_msg "Direct answer") <> "tool_use")
    by discriminate.
  split; [exact H1|]. split; [exact H2|].
  exact (@direct_answer _ _ create _ execute_tool
           "claude" "hello" None (Some [search_def]) (Some tm_ok)
           _ _ _ "Direct answer" [] H1 H2 eq_refl).
Defined.


End ScriptFacts.

(* ===================================================================== *)
(** ** The vector store *)
(* ===================================================================== *)

Module VectorStoreFacts.
Import VectorStore.

(** [TestBuildFilter]. *)
Example build_filter_tests :
  build_filter None None = None /\
  build_filter (Some "My Course") None
  = Some (WEq "course_title" (VStr "My Course")) /\
  build_filter None (Some 3%Z) = Some (WEq "lesson_number" (VInt 3)) /\
  build_filter (Some "My Course") (Some 1%Z)
  = Some (WAnd [WEq "course_title" (VStr "My Course");
                WEq "lesson_number" (VInt 1)]) /\
  build_filter None (Some 0%Z) = Some (WEq "lesson_number" (VInt 0)).
Proof. repeat split. Qed.

(** [TestSearchResults]. *)
Example search_results_tests :
  documents (from_chroma [["doc1"; "doc2"]]
                         [[[("course_title", VStr "A")];
                           [("course_title", VStr "B")]]]
                         [[1 # 10; 2 # 10]])
  = ["doc1"; "doc2"] /\
  is_empty (from_chroma [] [] []) = true /\
  error (empty "something went wrong") = Some "something went wrong" /\
  is_empty (empty "something went wrong") = true /\
  is_empty (mkResults ["hello"] [[]] [1 # 10] None) = false.
Proof. repeat split. Qed.

(** C4: the four cases of the filter builder, for every course name
    and every lesson number [n >= 0]; a lesson-number filter is never
    the absence of a filter, also for [n = 0]. *)
Theorem build_filter_cases (c : string) (n : Z) :
  (0 <= n)%Z ->
  build_filter None None = None /\
  build_filter (Some c) None = Some (WEq "course_title" (VStr c)) /\
  build_filter None (Some n) = Some (WEq "lesson_number" (VInt n)) /\
  build_filter None (Some n) <> build_filter None None /\
  build_filter (Some c) (Some n)
  = Some (WAnd [WEq "course_title" (VStr c); WEq "lesson_number" (VInt n)]).
Proof.
  intros _. repeat split. discriminate.
Qed.

Lemma build_filter_lesson_zero :
  (0 <= 0)%Z /\
  build_filter None None = None /\
  build_filter (Some "My Course") None
  = Some (WEq "course_title" (VStr "My Course")) /\
  build_filter None (Some 0%Z) = Some (WEq "lesson_number" (VInt 0)) /\
  build_filter None (Some 0%Z) <> build_filter None None /\
  build_filter (Some "My Course") (Some 0%Z)
  = Some (WAnd [WEq "course_title" (VStr "My Course");
                WEq "lesson_number" (VInt 0)]).
Proof.
  split; [lia|]. apply (@build_filter_cases "My Course" 0%Z). lia.
Defined.




End VectorStoreFacts.

(* ===================================================================== *)
(** ** Further properties of the generator *)
(* ===================================================================== *)

Section Coverage.

Variable Schema : Type.
Variable World : Type.
Variable messages_create :
  ApiParams Schema -> World -> pyresult Message * World.
Variable ToolManager : Type.
Variable execute_tool :
  ToolManager -> string -> kwargs -> World -> pyresult string * World.
Variable self_model : string.

Local Abbreviation handle :=
  (handle_tool_execution messages_create execute_tool self_model).
Local Abbreviation generate :=
  (generate_response messages_create execute_tool self_model).
Local Abbreviation trace := (@handle_trace Schema self_model).
Local Abbreviation followup := (@followup_of Schema self_model).
Local Abbreviation RunT := (Run Schema World).

(** *** The first call *)

Lemma generate_run query history tl tm (w : World) :
  let p0 := first_params self_model query history tl in
  let r0 := fst (messages_create p0 w) in
  let s1 : RunT := mkRun (snd (messages_create p0 w)) [EvCreate p0 r0] in
  generate query history tl tm (mkRun w []) =
  match r0, tm with
  | Ok m, Some t =>
      if is_tool_use m then handle m p0 t 1 s1 else (direct_result r0, s1)
  | _, _ => (direct_result r0, s1)
  end.
Proof.
  cbn zeta. unfold generate_response.
  match goal with
  | |- context [call_create _ ?q] =>
      replace q with (first_params self_model query history tl)
  end.
  2:{ unfold first_params, system_content, base_params, truthy_str, truthy_list.
      destruct history as [h|]; [destruct (String.eqb h EmptyString)|];
        destruct tl as [[|t ts]|]; reflexivity. }
  unfold bind, call_create. cbn [world log app].
  destruct (messages_create (first_params self_model query history tl) w)
    as [[m|e] w1]; cbn [fst snd]; [|destruct tm; reflexivity].
  unfold first_block_text, raise, ret. cbn [direct_result].
  destruct (is_tool_use m), tm; try reflexivity;
    destruct (content m) as [|[t'|i n a|t'] bs]; reflexivity.
Qed.

Lemma generate_log query history tl tm (w : World) :
  let p0 := first_params self_model query history tl in
  let r0 := fst (messages_create p0 w) in
  let run := generate query history tl tm (mkRun w []) in
  exists evs,
    log (snd run) = EvCreate p0 r0 :: evs /\
    ((exists m t,
         r0 = Ok m /\ is_tool_use m = true /\ tm = Some t /\
         trace m p0 1 evs (fst run))
     \/ (evs = [] /\ fst run = direct_result r0)).
Proof.
  cbn zeta. rewrite generate_run.
  destruct (fst (messages_create (first_params self_model query history tl) w))
    as [m|e] eqn:Hr.
  - destruct tm as [t|]; [destruct (is_tool_use m) eqn:Htu|].
    + match goal with
      | |- context [handle m ?p t 1 ?s] =>
          destruct (handle_has_trace messages_create execute_tool self_model 1 m p t s)
            as [evs [Hlog Htr]]
      end.
      exists evs. rewrite Hlog. split; [reflexivity|].
      left. exists m, t. auto.
    + exists []. split; [reflexivity|]. right. auto.
    + exists []. split; [reflexivity|]. right. auto.
  - exists []. split; [reflexivity|]. right. auto.
Qed.

(** *** What every LLM call of a query carries *)

Lemma create_params_round uses outs (l : list (Event Schema)) :
  create_params (events_of uses outs ++ l) = create_params l.
Proof.
  rewrite create_params_app,
          (create_params_executes _ (events_of_execute Schema uses outs)).
  reflexivity.
Qed.

Lemma followup_cases base round resp outs :
  let p := followup base round resp outs in
  model p = self_model /\ temperature p = 0 /\ max_tokens p = 800 /\
  system p = system base /\
  messages p = round_messages base resp outs /\
  ((include_tools_of round outs = true /\ tools p = tools base /\
    tools base <> None /\ tool_choice p = Some "auto")
   \/ (tools p = None /\ tool_choice p = None)).
Proof.
  cbn zeta. unfold followup_of.
  destruct (include_tools_of round outs); [destruct (tools base) eqn:Ht|];
    cbn; repeat split; auto.
  left. repeat split; congruence.
Qed.

Lemma trace_params resp base round evs res :
  trace resp base round evs res ->
  forall p, In p (create_params evs) ->
    model p = self_model /\ temperature p = 0 /\ max_tokens p = 800 /\
    system p = system base /\
    ((tools p = tools base /\ tools base <> None /\
      tool_choice p = Some "auto")
     \/ (tools p = None /\ tool_choice p = None)).
Proof.
  induction 1 as [resp base round outs r Hlen Hstop
                 |resp base round outs m rest res Hlen Hgo Htr IH];
    intros p;
    rewrite create_params_round;
    cbn [app create_params flat_map In];
    destruct (followup_cases base round resp outs)
      as (Hm & Ht & Hk & Hs & _ & Hc).
  - intros [<-|[]]. repeat split; try assumption.
    destruct Hc as [(_ & H1 & H2 & H3)|H1]; auto.
  - intros [<-|Hin].
    + repeat split; try assumption.
      destruct Hc as [(_ & H1 & H2 & H3)|H1]; auto.
    + exact (IH p Hin).
Qed.

(** X1: every LLM call of a query, the first one and every follow-up,
    is made with [self.model], temperature 0 and [max_tokens] 800. *)
Theorem sampling_parameters_fixed query history tl tm (w : World) :
  Forall (fun p => model p = self_model /\ temperature p = 0 /\
                   max_tokens p = 800)
         (create_params (log (snd (generate query history tl tm (mkRun w []))))).
Proof.
  destruct (generate_log query history tl tm w) as [evs [Hlog Hcase]].
  rewrite Hlog. cbn [create_params flat_map app].
  constructor.
  - unfold first_params. destruct tl as [[|t ts]|]; auto.
  - apply Forall_forall. intros p Hin.
    destruct Hcase as [(m & t & _ & _ & _ & Htr)|[-> _]]; [|destruct Hin].
    destruct (trace_params Htr p Hin) as (H1 & H2 & H3 & _). auto.
Qed.

(** X2: with a non-empty conversation history [h], the first LLM call
    holds the user's query as its only message, and the system text of
    every LLM call of the query is the system prompt, a blank line,
    the line "Previous conversation:" and [h]. *)
Theorem history_in_every_system_text query h tl tm (w : World) :
  let run := generate query (Some h) tl tm (mkRun w []) in
  h <> EmptyString ->
  (exists p r rest,
      log (snd run) = EvCreate p r :: rest /\
      messages p = [mkChat "user" (CText query)]) /\
  Forall (fun p => system p
                   = (SYSTEM_PROMPT ++ nl ++ nl ++ "Previous conversation:"
                        ++ nl ++ h)%string)
         (create_params (log (snd run))).
Proof.
  cbn zeta. intros Hh.
  destruct (generate_log query (Some h) tl tm w) as [evs [Hlog Hcase]].
  rewrite Hlog.
  assert (Hsys : system (first_params self_model query (Some h) tl)
                 = (SYSTEM_PROMPT ++ nl ++ nl ++ "Previous conversation:"
                      ++ nl ++ h)%string).
  { apply String.eqb_neq in Hh.
    unfold first_params, system_content. rewrite Hh.
    destruct tl as [[|t ts]|]; reflexivity. }
  split.
  - do 3 eexists. split; [reflexivity|].
    unfold first_params. destruct tl as [[|t ts]|]; reflexivity.
  - cbn [create_params flat_map app]. constructor; [exact Hsys|].
    apply Forall_forall. intros p Hin.
    destruct Hcase as [(m & t & _ & _ & _ & Htr)|[-> _]]; [|destruct Hin].
    destruct (trace_params Htr p Hin) as (_ & _ & _ & H & _).
    rewrite H. exact Hsys.
Qed.

(** X3: an LLM call either carries exactly the tool definitions passed
    to [generate_response] together with [tool_choice = auto], or
    carries neither; the first call carries them exactly when a
    non-empty list was passed, and with no list or an empty list no
    call of the query carries any. *)
Theorem tools_passed_through query history tl tm (w : World) :
  let calls :=
    create_params (log (snd (generate query history tl tm (mkRun w [])))) in
  Forall (fun p => (tools p = tl /\ tool_choice p = Some "auto" /\
                    truthy_list tl = true)
                   \/ (tools p = None /\ tool_choice p = None)) calls /\
  (exists p rest,
      calls = p :: rest /\
      tools p = if truthy_list tl then tl else None) /\
  (truthy_list tl = false -> Forall (fun p => tools p = None) calls).
Proof.
  cbn zeta.
  destruct (generate_log query history tl tm w) as [evs [Hlog Hcase]].
  rewrite Hlog. cbn [create_params flat_map app].
  change (flat_map _ evs) with (create_params evs).
  set (p0 := first_params self_model query history tl) in *.
  assert (H0 : tools p0 = (if truthy_list tl then tl else None) /\
               tool_choice p0
               = (if truthy_list tl then Some "auto" else None)).
  { unfold p0, first_params. destruct tl as [[|t ts]|]; auto. }
  destruct H0 as [H0 H0'].
  assert (Hall : Forall (fun p => (tools p = tl /\ tool_choice p = Some "auto" /\
                                   truthy_list tl = true)
                                  \/ (tools p = None /\ tool_choice p = None))
                        (p0 :: create_params evs)).
  { constructor.
    - rewrite H0, H0'. destruct (truthy_list tl); auto.
    - apply Forall_forall. intros p Hin.
      destruct Hcase as [(m & t & _ & _ & _ & Htr)|[-> _]]; [|destruct Hin].
      destruct (trace_params Htr p Hin)
        as (_ & _ & _ & _ & [(H1 & H2 & H3)|H1]); [|auto].
      left. clear H0'. revert H0. destruct (truthy_list tl); intros H0;
        [|congruence].
      repeat split; congruence. }
  split; [exact Hall|]. split; [eauto|].
  intros Hf. eapply Forall_impl; [|exact Hall].
  intros p [(_ & _ & Ht)|[Hn _]]; [congruence|exact Hn].
Qed.

(** The call of index [i] of a handler entered in round [round] has no
    tool definitions once [round + i] reaches the cap. *)
Lemma trace_capped_call resp base round evs res :
  trace resp base round evs res ->
  forall i p, nth_error (create_params evs) i = Some p ->
    MAX_TOOL_ROUNDS <= round + i ->
    tools p = None /\ tool_choice p = None.
Proof.
  induction 1 as [resp base round outs r Hlen Hstop
                 |resp base round outs m rest res Hlen Hgo Htr IH];
    intros i p;
    rewrite create_params_round;
    cbn [app create_params flat_map];
    destruct (followup_cases base round resp outs)
      as (_ & _ & _ & _ & _ & Hc).
  - destruct i as [|i]; cbn [nth_error];
      [|intros Hn; destruct i; discriminate].
    intros [= <-] Hle.
    destruct Hc as [(Hinc & _)|Hc]; [|exact Hc].
    apply include_tools_round in Hinc. lia.
  - destruct i as [|i]; cbn [nth_error].
    + intros [= <-] Hle.
      destruct Hc as [(Hinc & _)|Hc]; [|exact Hc].
      apply include_tools_round in Hinc. lia.
    + intros Hn Hle. apply (IH i p Hn). lia.
Qed.

(** X5: whatever the LLM answers and the tools do, a query makes at most
    [MAX_TOOL_ROUNDS + 1] LLM calls, and the call of index
    [MAX_TOOL_ROUNDS] (the third one), when it is made, carries neither
    tool definitions nor a tool choice. *)
Theorem last_round_withholds_tools query history tl tm (w : World) :
  let calls :=
    create_params (log (snd (generate query history tl tm (mkRun w [])))) in
  length calls <= MAX_TOOL_ROUNDS + 1 /\
  forall p, nth_error calls MAX_TOOL_ROUNDS = Some p ->
            tools p = None /\ tool_choice p = None.
Proof.
  cbn zeta.
  split; [apply (calls_bound messages_create execute_tool)|].
  destruct (generate_log query history tl tm w) as [evs [Hlog Hcase]].
  rewrite Hlog. cbn [create_params flat_map app].
  change (flat_map _ evs) with (create_params evs).
  intros p Hn.
  change (nth_error (create_params evs) 1 = Some p) in Hn.
  destruct Hcase as [(m & t & _ & _ & _ & Htr)|[-> _]]; [|discriminate].
  apply (trace_capped_call Htr 1 Hn). unfold MAX_TOOL_ROUNDS. lia.
Qed.

(** *** How consecutive calls relate *)

Lemma first_create_unique (e1 e2 t1 t2 : list (Event Schema)) p1 r1 p2 r2 :
  forallb (@is_execute Schema) e1 = true ->
  forallb (@is_execute Schema) e2 = true ->
  e1 ++ EvCreate p1 r1 :: t1 = e2 ++ EvCreate p2 r2 :: t2 ->
  e1 = e2 /\ p1 = p2 /\ r1 = r2 /\ t1 = t2.
Proof.
  revert e2. induction e1 as [|x e1 IH]; intros [|y e2] H1 H2 Heq;
    cbn in *.
  - injection Heq as -> -> ->. auto.
  - injection Heq as <- _. discriminate.
  - injection Heq as -> _. discriminate.
  - injection Heq as -> Heq.
    apply andb_prop in H1 as [_ H1]. apply andb_prop in H2 as [_ H2].
    destruct (IH e2 H1 H2 Heq) as (-> & -> & -> & ->). auto.
Qed.

Lemma create_not_in_round uses outs (pre post : list (Event Schema)) p r :
  events_of uses outs = pre ++ EvCreate p r :: post -> False.
Proof.
  intros H. pose proof (events_of_execute Schema uses outs) as Hex.
  rewrite H, forallb_app in Hex. apply andb_prop in Hex as [_ Hex].
  discriminate.
Qed.

Lemma trace_head resp base round evs res :
  trace resp base round evs res ->
  exists outs r tail,
    length outs = length (tool_uses (content resp)) /\
    evs = events_of (tool_uses (content resp)) outs
            ++ EvCreate (followup base round resp outs) r :: tail.
Proof. destruct 1; do 3 eexists; split; eauto. Qed.

Lemma round_messages_app (base : ApiParams Schema) resp outs :
  round_messages base resp outs
  = messages base
      ++ mkChat "assistant" (CBlocks (content resp))
      :: match results_of (tool_uses (content resp)) outs with
         | [] => []
         | rs => [mkChat "user" (CToolResults rs)]
         end.
Proof.
  unfold round_messages.
  destruct (results_of (tool_uses (content resp)) outs);
    [reflexivity|rewrite <- app_assoc; reflexivity].
Qed.

Lemma trace_consecutive resp base round evs res :
  trace resp base round evs res ->
  forall p_in pre p1 r1 mid p2 r2 post,
    messages base = messages p_in ->
    is_tool_use resp = true ->
    EvCreate p_in (Ok resp) :: evs
      = pre ++ EvCreate p1 r1 :: mid ++ EvCreate p2 r2 :: post ->
    forallb (@is_execute Schema) mid = true ->
    exists m outs,
      r1 = Ok m /\ is_tool_use m = true /\
      length outs = length (tool_uses (content m)) /\
      mid = events_of (tool_uses (content m)) outs /\
      messages p2
      = messages p1
          ++ mkChat "assistant" (CBlocks (content m))
          :: match results_of (tool_uses (content m)) outs with
             | [] => []
             | rs => [mkChat "user" (CToolResults rs)]
             end.
Proof.
  induction 1 as [resp base round outs r Hlen Hstop
                 |resp base round outs m rest res Hlen Hgo Htr IH];
    intros p_in pre p1 r1 mid p2 r2 post Hbase Htu Heq Hmid;
    (destruct pre as [|c pre']; cbn [app] in Heq;
     [ injection Heq as <- <- Heq;
       apply first_create_unique in Heq
         as (<- & <- & _ & _); [|apply events_of_execute|exact Hmid];
       exists resp, outs; repeat split; try assumption;
       rewrite followup_messages, round_messages_app, Hbase; reflexivity
     | injection Heq as _ Heq;
       apply app_split_mid in Heq
         as [[mid' [Hev _]]|[mid' [Hpre Hrest]]];
       [exfalso; eapply create_not_in_round; eassumption|] ]).
  - destruct mid' as [|c' mid']; cbn in Hrest; injection Hrest as _ Hrest.
    + destruct mid; discriminate.
    + destruct mid'; discriminate.
  - apply andb_prop in Hgo as [Htu' _].
    apply (IH (followup base round resp outs) mid' p1 r1 mid p2 r2 post);
      try assumption.
    cbn [updated_of messages]. rewrite followup_messages. reflexivity.
Qed.

(** X4: the history only grows.  For two LLM calls of a query that
    follow one another (only tool executions between them), the first
    was answered by a tool request [m], the executions between them are
    those of [m]'s tool-use blocks, in order, and the second call's
    messages are the first call's messages, then the assistant turn
    [m], then (when [m] has a tool-use block) one user message with the
    results of exactly these executions. *)
Theorem history_only_grows query history tl tm (w : World)
        pre p1 r1 mid p2 r2 post :
  let run := generate query history tl tm (mkRun w []) in
  log (snd run) = pre ++ EvCreate p1 r1 :: mid ++ EvCreate p2 r2 :: post ->
  forallb (@is_execute Schema) mid = true ->
  exists m outs,
    r1 = Ok m /\ stop_reason m = "tool_use" /\
    length outs = length (tool_uses (content m)) /\
    mid = events_of (tool_uses (content m)) outs /\
    messages p2
    = messages p1
        ++ mkChat "assistant" (CBlocks (content m))
        :: match results_of (tool_uses (content m)) outs with
           | [] => []
           | rs => [mkChat "user" (CToolResults rs)]
           end.
Proof.
  cbn zeta. intros Hlog Hmid.
  destruct (generate_log query history tl tm w) as [evs [Hl Hcase]].
  rewrite Hl in Hlog.
  destruct Hcase as [(m & t & Hr & Htu & _ & Htr)|[-> _]].
  - rewrite Hr in Hlog.
    destruct (trace_consecutive Htr _ _ _ _ _ _ _ eq_refl Htu Hlog Hmid)
      as (m' & outs & H1 & H2 & H3 & H4 & H5).
    exists m', outs. repeat split; try assumption.
    now apply String.eqb_eq.
  - destruct pre as [|c [|c' pre]]; try discriminate.
    cbn in Hlog. injection Hlog as _ _ Hlog. destruct mid; discriminate.
Qed.

Lemma events_raised uses (outs : list (pyresult string)) :
  length outs = length uses ->
  existsb (@event_raised Schema) (events_of uses outs)
  = existsb (@raised string) outs.
Proof.
  revert outs. induction uses as [|[[id n] a] us IH]; intros [|o outs] Hlen;
    cbn in Hlen; try discriminate; [reflexivity|].
  injection Hlen as Hlen. unfold events_of in *. cbn [combine map existsb].
  rewrite (IH outs Hlen). destruct o; reflexivity.
Qed.

(** X7: the second LLM call of a query carries what the first call
    carried as tool definitions exactly when no tool execution of the
    first round raised; a tool that returns an error text without
    raising does not end the chain. *)
Theorem tools_kept_after_clean_round query history tl tm (w : World)
        p0 m execs p1 r1 rest :
  let run := generate query history tl tm (mkRun w []) in
  log (snd run) = EvCreate p0 (Ok m) :: execs ++ EvCreate p1 r1 :: rest ->
  forallb (@is_execute Schema) execs = true ->
  tools p1 = if existsb (@event_raised Schema) execs then None else tools p0.
Proof.
  cbn zeta. intros Hlog Hex.
  destruct (generate_log query history tl tm w) as [evs [Hl Hcase]].
  rewrite Hl in Hlog. injection Hlog as <- Hr ->.
  destruct Hcase as [(m' & t & Hr' & _ & _ & Htr)|[Hnil _]];
    [|destruct execs; discriminate].
  rewrite Hr in Hr'. injection Hr' as <-.
  destruct (trace_head Htr) as (outs & r & tail & Hlen & Hev).
  apply first_create_unique in Hev as (-> & -> & _ & _);
    [|exact Hex|apply events_of_execute].
  rewrite events_raised by exact Hlen. rewrite followup_tools.
  unfold include_tools_of. cbn.
  destruct (existsb (@raised string) outs); reflexivity.
Qed.

(** *** Every tool execution *)

Lemma trace_execute resp base round evs res :
  trace resp base round evs res ->
  forall p_in pre name input r post,
    is_tool_use resp = true ->
    EvCreate p_in (Ok resp) :: evs = pre ++ EvExecute name input r :: post ->
    exists hist p' resp' before after p r' rest id rs msgs,
      pre = hist ++ EvCreate p' (Ok resp') :: before /\
      forallb (@is_execute Schema) before = true /\
      is_tool_use resp' = true /\
      nth_error (tool_uses (content resp')) (length before)
        = Some (id, name, input) /\
      post = after ++ EvCreate p r' :: rest /\
      forallb (@is_execute Schema) after = true /\
      messages p = msgs ++ [mkChat "user" (CToolResults rs)] /\
      nth_error rs (length before)
        = Some (mkToolResult "tool_result" id (rendered r)).
Proof.
  induction 1 as [resp base round outs r0 Hlen Hstop
                 |resp base round outs m rest res Hlen Hgo Htr IH];
    intros p_in pre name input r post Htu Heq;
    (destruct pre as [|c pre']; [discriminate|]);
    cbn [app] in Heq; injection Heq as <- Heq;
    apply app_split_mid in Heq as [[mid [Hev Hpost]]|[mid [Hpre Hrest]]].
  - pose proof (events_of_execute Schema (tool_uses (content resp)) outs) as Hex.
    rewrite Hev, forallb_app in Hex. apply andb_prop in Hex as [Hb Ha].
    cbn [forallb is_execute andb] in Ha.
    apply events_of_nth in Hev as [id [Hu [Ho Hr]]].
    exists [], p_in, resp, pre', mid, (followup base round resp outs), r0, [],
           id, (results_of (tool_uses (content resp)) outs),
           (messages base ++ [mkChat "assistant" (CBlocks (content resp))]).
    repeat split; try assumption; try reflexivity.
    rewrite followup_messages. unfold round_messages.
    destruct (results_of (tool_uses (content resp)) outs) eqn:Hrs;
      [destruct (length pre'); discriminate|reflexivity].
  - destruct mid as [|c mid]; [discriminate|].
    cbn in Hrest. injection Hrest as _ Hrest.
    destruct mid; discriminate.
  - pose proof (events_of_execute Schema (tool_uses (content resp)) outs) as Hex.
    rewrite Hev, forallb_app in Hex. apply andb_prop in Hex as [Hb Ha].
    cbn [forallb is_execute andb] in Ha.
    apply events_of_nth in Hev as [id [Hu [Ho Hr]]].
    exists [], p_in, resp, pre', mid, (followup base round resp outs), (Ok m),
           rest, id, (results_of (tool_uses (content resp)) outs),
           (messages base ++ [mkChat "assistant" (CBlocks (content resp))]).
    repeat split; try assumption; try reflexivity.
    rewrite followup_messages. unfold round_messages.
    destruct (results_of (tool_uses (content resp)) outs) eqn:Hrs;
      [destruct (length pre'); discriminate|reflexivity].
  - apply andb_prop in Hgo as [Htu' _].
    destruct (IH _ _ _ _ _ _ Htu' Hrest)
      as (hist & p' & resp' & before & after & p & r' & rest' & id & rs & msgs
          & -> & Hb & Ht & Hu & -> & Ha & Hm & Hr).
    exists (EvCreate p_in (Ok resp)
              :: events_of (tool_uses (content resp)) outs ++ hist),
           p', resp', before, after, p, r', rest', id, rs, msgs.
    repeat split; try assumption.
    rewrite Hpre. cbn [app]. rewrite <- app_assoc. reflexivity.
Qed.

(** With tools whose exceptions are all caught: every tool execution of
    a query happens with a tool manager passed, on a tool-use block
    (same name and arguments) of the latest LLM answer, whose stop
    reason is ["tool_use"]; the blocks of that answer before it were
    executed first; and the next LLM call is made with a last message
    that holds, at the block's position and under the block's id, the
    text the tool returned, unchanged, or the error text when it
    raised. *)
Lemma generate_execute_reported query history tl tm (w : World)
        pre name input r post :
  let run := generate query history tl tm (mkRun w []) in
  log (snd run) = pre ++ EvExecute name input r :: post ->
  tm <> None /\
  exists hist p' resp before after p r' rest id rs msgs,
    pre = hist ++ EvCreate p' (Ok resp) :: before /\
    forallb (@is_execute Schema) before = true /\
    stop_reason resp = "tool_use" /\
    nth_error (tool_uses (content resp)) (length before)
      = Some (id, name, input) /\
    post = after ++ EvCreate p r' :: rest /\
    forallb (@is_execute Schema) after = true /\
    messages p = msgs ++ [mkChat "user" (CToolResults rs)] /\
    nth_error rs (length before)
      = Some (mkToolResult "tool_result" id
                match r with
                | Ok text => text
                | Raise e => ("Tool execution error: " ++ exc_str e)%string
                end).
Proof.
  cbn zeta. intros Hlog.
  destruct (generate_log query history tl tm w) as [evs [Hl Hcase]].
  rewrite Hl in Hlog.
  destruct Hcase as [(m & t & Hr & Htu & Htm & Htr)|[-> _]].
  - split; [congruence|]. rewrite Hr in Hlog.
    destruct (trace_execute Htr _ _ _ _ _ Htu Hlog)
      as (hist & p' & resp' & before & after & p & r' & rest' & id & rs & msgs
          & H1 & H2 & H3 & H4 & H5 & H6 & H7 & H8).
    exists hist, p', resp', before, after, p, r', rest', id, rs, msgs.
    repeat split; try assumption.
    now apply String.eqb_eq.
  - destruct pre as [|c [|c' pre]]; discriminate.
Qed.

(** *** The roles of the history *)

Lemma trace_roles resp base round evs res :
  trace resp base round evs res ->
  forall j,
    tool_uses (content resp) <> [] ->
    forallb (@names_a_tool Schema) evs = true ->
    map role (messages base) = alternating j ->
    forall i p, nth_error (create_params evs) i = Some p ->
                map role (messages p) = alternating (S (j + i)).
Proof.
  assert (Hround : forall (b : ApiParams Schema) a outs j,
             length outs = length (tool_uses (content a)) ->
             tool_uses (content a) <> [] ->
             map role (messages b) = alternating j ->
             map role (round_messages b a outs) = alternating (S j)).
  { intros b a outs j Hlen Hne Hj. rewrite round_messages_app.
    unfold results_of.
    destruct (tool_uses (content a)) as [|u us]; [congruence|].
    destruct outs as [|o outs]; [discriminate|].
    cbn [combine map]. rewrite map_app, Hj. reflexivity. }
  induction 1 as [resp base round outs r Hlen Hstop
                 |resp base round outs m rest res Hlen Hgo Htr IH];
    intros j Hne Hnames Hj i p;
    rewrite create_params_round; cbn [create_params flat_map app].
  - destruct i as [|i]; cbn [nth_error];
      [|intros Hn; destruct i; discriminate].
    intros [= <-]. rewrite followup_messages, Nat.add_0_r. auto.
  - destruct i as [|i]; cbn [nth_error].
    + intros [= <-]. rewrite followup_messages, Nat.add_0_r. auto.
    + intros Hn.
      rewrite forallb_app in Hnames. apply andb_prop in Hnames as [_ Hnames].
      cbn [forallb names_a_tool] in Hnames.
      apply andb_prop in Hnames as [Hm Hrest].
      apply andb_prop in Hgo as [Htu _]. rewrite Htu in Hm. cbn in Hm.
      replace (S (j + S i)) with (S (S j + i)) by lia.
      apply (IH (S j)); try assumption.
      * destruct (tool_uses (content m)); [discriminate|congruence].
      * cbn [updated_of messages]. auto.
Qed.

(** X11: when every tool request of the LLM names at least one tool,
    the messages of the [k]-th LLM call of a query (counting from 0)
    have the roles user, then [k] times assistant, user: the history
    alternates and ends with a user message. *)
Theorem history_roles_alternate query history tl tm (w : World) k p :
  let run := generate query history tl tm (mkRun w []) in
  forallb (@names_a_tool Schema) (log (snd run)) = true ->
  nth_error (create_params (log (snd run))) k = Some p ->
  map role (messages p) = alternating k.
Proof.
  cbn zeta. intros Hnames Hk.
  destruct (generate_log query history tl tm w) as [evs [Hl Hcase]].
  rewrite Hl in *. cbn [create_params flat_map app] in Hk.
  change (flat_map _ evs) with (create_params evs) in Hk.
  assert (H0 : map role (messages (first_params self_model query history tl))
               = alternating 0).
  { unfold first_params. destruct tl as [[|t ts]|]; reflexivity. }
  destruct k as [|k]; cbn [nth_error] in Hk.
  - injection Hk as <-. exact H0.
  - destruct Hcase as [(m & t & Hr & Htu & _ & Htr)|[-> _]];
      [|destruct k; discriminate].
    cbn [forallb names_a_tool] in Hnames. rewrite Hr, Htu in Hnames.
    cbn in Hnames.
    apply (trace_roles Htr 0) with (i := k); try assumption.
    + destruct (tool_uses (content m)); [discriminate|congruence].
    + destruct (tool_uses (content m)); [discriminate|exact Hnames].
Qed.

(** *** The result *)

(** With tools whose exceptions are all caught, [generate_response]
    raises in two ways only.  Either the LLM call made last raised, and
    that exception is the one passed on; or the first answer was
    returned directly, by reading [content[0].text], and that answer has
    no block ([IndexError]) or a first block without a [text] attribute
    ([AttributeError]). *)
Lemma generate_raise_cases query history tl tm (w : World) e :
  let run := generate query history tl tm (mkRun w []) in
  fst run = Raise e ->
  (exists pre p, log (snd run) = pre ++ [EvCreate p (Raise e)])
  \/ (exists p m,
         log (snd run) = [EvCreate p (Ok m)] /\
         ((content m = [] /\ e = IndexError)
          \/ exists b bs, content m = b :: bs /\ hasattr_text b = false /\
                          e = AttributeError b)).
Proof.
  cbn zeta. intros Hres.
  destruct (generate_log query history tl tm w) as [evs [Hl Hcase]].
  rewrite Hl.
  destruct Hcase as [(m & t & _ & _ & _ & Htr)|[-> Hdirect]].
  - left. destruct (trace_result Htr) as [pre [p [r [-> Hr]]]].
    rewrite Hres in Hr. destruct r as [m'|e']; [discriminate|].
    injection Hr as ->.
    exists (EvCreate (first_params self_model query history tl)
                     (fst (messages_create
                             (first_params self_model query history tl) w))
              :: pre), p.
    reflexivity.
  - rewrite Hres in Hdirect.
    destruct (fst (messages_create (first_params self_model query history tl) w))
      as [m|e'].
    + right. do 2 eexists. split; [reflexivity|].
      cbn [direct_result] in Hdirect.
      destruct (content m) as [|[t'|i n a|t'] bs]; try discriminate;
        injection Hdirect as ->; [left; auto|right|right];
        do 2 eexists; repeat split.
    + left. exists []. eexists. cbn in Hdirect. injection Hdirect as ->.
      reflexivity.
Qed.

Lemma first_text_skips (skipped rest : list ContentBlock) (t : string) :
  (forall b, In b skipped -> hasattr_text b = false) ->
  first_text (skipped ++ TextBlock t :: rest) = Some t.
Proof.
  induction skipped as [|b bs IH]; intros H; [reflexivity|].
  destruct b as [t'|i n a|t'].
  - specialize (H (TextBlock t') (or_introl eq_refl)). discriminate.
  - apply IH. intros b Hb. apply H. right. exact Hb.
  - apply IH. intros b Hb. apply H. right. exact Hb.
Qed.

(** X9: after tools were handled, the answer of the query is the text
    of the first block with a [text] attribute of the last LLM answer,
    whatever blocks (tool-use or other) come before it and whatever the
    answer's stop reason is. *)
Theorem answer_is_first_text_block query history tl tm (w : World)
        pre p m skipped t rest :
  let run := generate query history tl tm (mkRun w []) in
  log (snd run) = pre ++ [EvCreate p (Ok m)] ->
  pre <> [] ->
  content m = skipped ++ TextBlock t :: rest ->
  (forall b, In b skipped -> hasattr_text b = false) ->
  fst run = Ok t.
Proof.
  cbn zeta. intros Hlast Hpre Hcontent Hskip.
  destruct (generate_log query history tl tm w) as [evs [Hl Hcase]].
  rewrite Hl in Hlast.
  destruct Hcase as [(m0 & t0 & _ & _ & _ & Htr)|[-> _]].
  - destruct (trace_result Htr) as [pre' [p' [r' [-> Hres]]]].
    rewrite app_comm_cons in Hlast.
    apply app_inj_tail in Hlast as [_ Hlast]. injection Hlast as -> ->.
    rewrite Hres. cbn [final_result]. unfold final_text.
    rewrite Hcontent, first_text_skips by exact Hskip. reflexivity.
  - destruct pre as [|c [|c' pre]]; [congruence|discriminate|discriminate].
Qed.

(** *** A tool request that names no tool *)

(** X8: when an answer handled as a tool request has no tool-use block,
    the handler executes nothing and makes the follow-up LLM call at
    once, in the unchanged world: its history is the previous one plus
    the assistant turn, with no user message after it, and it carries
    the tool definitions of the previous call if the round is below the
    cap. *)
Theorem tool_request_without_tool_block (resp : Message)
        (base : ApiParams Schema) (tm : ToolManager) (round : nat) (s : RunT) :
  tool_uses (content resp) = [] ->
  exists p rest,
    log (snd (handle resp base tm round s))
    = log s ++ EvCreate p (fst (messages_create p (world s))) :: rest /\
    messages p
    = messages base ++ [mkChat "assistant" (CBlocks (content resp))] /\
    tools p = (if round <? MAX_TOOL_ROUNDS then tools base else None).
Proof.
  intros Hnone.
  pose proof (handle_round messages_create execute_tool self_model
                           resp base tm round s) as Hround.
  cbn zeta in Hround. rewrite Hnone in Hround. cbn [exec_seq fst snd] in Hround.
  unfold events_of in Hround. cbn [combine map app] in Hround.
  set (p := followup base round resp []) in *.
  assert (Hp : messages p
               = messages base ++ [mkChat "assistant" (CBlocks (content resp))]
               /\ tools p = (if round <? MAX_TOOL_ROUNDS then tools base
                             else None)).
  { unfold p. rewrite followup_messages, followup_tools.
    unfold round_messages, results_of, include_tools_of. rewrite Hnone.
    cbn. rewrite andb_true_r. auto. }
  destruct (messages_create p (world s)) as [[m|e] w2] eqn:Hc;
    cbn [fst snd] in *.
  - destruct (is_tool_use m && include_tools_of round []).
    + match type of Hround with
      | _ = handle ?a ?b ?c ?d ?s2 =>
          destruct (handle_has_trace messages_create execute_tool self_model
                                     d a b c s2) as [rest [Hl _]]
      end.
      exists p, rest. rewrite Hround, Hl, Hc. cbn [log fst].
      rewrite <- app_assoc. auto.
    + exists p, []. rewrite Hround, Hc. auto.
  - exists p, []. rewrite Hround, Hc. auto.
Qed.

(** *** The handler at the cap *)


End Coverage.

(* ===================================================================== *)
(** ** The further properties on scripted runs *)
(* ===================================================================== *)

Module ScenarioFacts.
Import Script Scenarios.

Local Abbreviation create := (@messages_create Schema).

Lemma history_in_every_system_text_history_run :
  "User: hi" <> EmptyString /\
  (exists p r rest,
      log (snd history_run) = EvCreate p r :: rest /\
      messages p = [mkChat "user" (CText "And lesson 2?")]) /\
  Forall (fun p => system p
                   = (SYSTEM_PROMPT ++ nl ++ nl ++ "Previous conversation:"
                        ++ nl ++ "User: hi")%string)
         (create_params (log (snd history_run))).
Proof.
  assert (H : "User: hi" <> EmptyString) by discriminate.
  split; [exact H|].
  exact (history_in_every_system_text create execute_tool "claude"
           "And lesson 2?" (Some [search_def]) (Some tm_ok)
           [Ok (tool_msg "t1" "lesson 2"); Ok (text_msg "Lesson 2 is next")]
           H).
Defined.

Lemma history_only_grows_two_rounds_run :
  log (snd two_rounds_run)
  = [] ++ EvCreate (create_at (log (snd two_rounds_run)) 0)
                   (Ok (tool_msg "t1" "q1"))
       :: [EvExecute "search_course_content" [("query", "q1")]
                     (Ok "search results")]
       ++ EvCreate (create_at (log (snd two_rounds_run)) 1)
                   (Ok (tool_msg "t2" "q2"))
       :: skipn 3 (log (snd two_rounds_run)) /\
  exists m outs,
    Ok (tool_msg "t1" "q1") = Ok m /\ stop_reason m = "tool_use" /\
    length outs = length (tool_uses (content m)) /\
    [EvExecute "search_course_content" [("query", "q1")]
               (Ok "search results")]
    = @events_of Schema (tool_uses (content m)) outs /\
    messages (create_at (log (snd two_rounds_run)) 1)
    = messages (create_at (log (snd two_rounds_run)) 0)
        ++ mkChat "assistant" (CBlocks (content m))
        :: match results_of (tool_uses (content m)) outs with
           | [] => []
           | rs => [mkChat "user" (CToolResults rs)]
           end.
Proof.
  assert (H : log (snd two_rounds_run)
              = [] ++ EvCreate (create_at (log (snd two_rounds_run)) 0)
                               (Ok (tool_msg "t1" "q1"))
                   :: [EvExecute "search_course_content" [("query", "q1")]
                                 (Ok "search results")]
                   ++ EvCreate (create_at (log (snd two_rounds_run)) 1)
                               (Ok (tool_msg "t2" "q2"))
                   :: skipn 3 (log (snd two_rounds_run)))
    by (vm_compute; reflexivity).
  split; [exact H|].
  exact (history_only_grows create execute_tool "claude" "complex query"
           None (Some [search_def]) (Some tm_ok) _ _ _ _ _ _ _ _ H eq_refl).
Defined.

Lemma tools_kept_after_clean_round_two_rounds_run :
  log (snd two_rounds_run)
  = EvCreate (create_at (log (snd two_rounds_run)) 0)
             (Ok (tool_msg "t1" "q1"))
    :: [EvExecute "search_course_content" [("query", "q1")]
                  (Ok "search results")]
    ++ EvCreate (create_at (log (snd two_rounds_run)) 1)
                (Ok (tool_msg "t2" "q2"))
    :: skipn 3 (log (snd two_rounds_run)) /\
  tools (create_at (log (snd two_rounds_run)) 1)
  = if existsb (@event_raised Schema)
         [EvExecute "search_course_content" [("query", "q1")]
                    (Ok "search results")]
    then None
    else tools (create_at (log (snd two_rounds_run)) 0).
Proof.
  assert (H : log (snd two_rounds_run)
              = EvCreate (create_at (log (snd two_rounds_run)) 0)
                         (Ok (tool_msg "t1" "q1"))
                :: [EvExecute "search_course_content" [("query", "q1")]
                              (Ok "search results")]
                ++ EvCreate (create_at (log (snd two_rounds_run)) 1)
                            (Ok (tool_msg "t2" "q2"))
                :: skipn 3 (log (snd two_rounds_run)))
    by (vm_compute; reflexivity).
  split; [exact H|].
  exact (tools_kept_after_clean_round create execute_tool "claude"
           "complex query" None (Some [search_def]) (Some tm_ok) _ _ _ _ _
           H eq_refl).
Defined.

Lemma history_roles_alternate_two_rounds_run :
  forallb (@names_a_tool Schema) (log (snd two_rounds_run)) = true /\
  nth_error (create_params (log (snd two_rounds_run))) 2
  = Some (create_at (log (snd two_rounds_run)) 2) /\
  map role (messages (create_at (log (snd two_rounds_run)) 2))
  = ["user"; "assistant"; "user"; "assistant"; "user"].
Proof.
  assert (H1 : forallb (@names_a_tool Schema) (log (snd two_rounds_run)) = true)
    by (vm_compute; reflexivity).
  assert (H2 : nth_error (create_params (log (snd two_rounds_run))) 2
               = Some (create_at (log (snd two_rounds_run)) 2))
    by (vm_compute; reflexivity).
  split; [exact H1|]. split; [exact H2|].
  exact (history_roles_alternate create execute_tool "claude" "complex query"
           None (Some [search_def]) (Some tm_ok) _ 2 H1 H2).
Defined.

Lemma answer_is_first_text_block_capped_text_run :
  log (snd capped_text_run)
  = removelast (log (snd capped_text_run))
      ++ [EvCreate (create_at (log (snd capped_text_run)) 2)
                   (Ok insisting_msg)] /\
  removelast (log (snd capped_text_run)) <> [] /\
  content insisting_msg
  = [ToolUseBlock "t3" "search_course_content" [("query", "q3")]]
      ++ TextBlock "Partial answer" :: [] /\
  (forall b,
      In b [ToolUseBlock "t3" "search_course_content" [("query", "q3")]] ->
      hasattr_text b = false) /\
  fst capped_text_run = Ok "Partial answer".
Proof.
  assert (H1 : log (snd capped_text_run)
               = removelast (log (snd capped_text_run))
                   ++ [EvCreate (create_at (log (snd capped_text_run)) 2)
                                (Ok insisting_msg)])
    by (vm_compute; reflexivity).
  assert (H2 : removelast (log (snd capped_text_run)) <> [])
    by (vm_compute; discriminate).
  assert (H3 : content insisting_msg
               = [ToolUseBlock "t3" "search_course_content" [("query", "q3")]]
                   ++ TextBlock "Partial answer" :: [])
    by reflexivity.
  assert (H4 : forall b,
             In b [ToolUseBlock "t3" "search_course_content" [("query", "q3")]] ->
             hasattr_text b = false)
    by (intros b [<-|[]]; reflexivity).
  split; [exact H1|]. split; [exact H2|]. split; [exact H3|].
  split; [exact H4|].
  exact (answer_is_first_text_block create execute_tool "claude"
           "complex query" None (Some [search_def]) (Some tm_ok) _ _ _ _ _ _
           H1 H2 H3 H4).
Defined.

Lemma tool_request_without_tool_block_silent_request :
  tool_uses (content silent_request_msg) = [] /\
  exists p rest,
    log (snd (handle_tool_execution create execute_tool "claude"
                silent_request_msg (user_params "search") tm_ok 1
                (mkRun [Ok (text_msg "done")] [])))
    = [] ++ EvCreate p (fst (create p [Ok (text_msg "done")])) :: rest /\
    messages p
    = messages (user_params "search")
        ++ [mkChat "assistant" (CBlocks (content silent_request_msg))] /\
    tools p = (if 1 <? MAX_TOOL_ROUNDS then tools (user_params "search")
               else None).
Proof.
  assert (H : tool_uses (content silent_request_msg) = []) by reflexivity.
  split; [exact H|].
  exact (tool_request_without_tool_block create execute_tool "claude"
           silent_request_msg (user_params "search") tm_ok 1
           (mkRun [Ok (text_msg "done")] []) H).
Defined.


End ScenarioFacts.

(* ===================================================================== *)
(** ** The generator when a tool may raise any exception: properties *)
(* ===================================================================== *)

Section AnyExceptionFacts.

Variable Schema : Type.
Variable World : Type.
Variable messages_create :
  ApiParams Schema -> World -> pyresult Message * World.
Variable ToolManager : Type.
Variable execute_tool :
  ToolManager -> string -> kwargs -> World -> pyresult string * World.
Variable self_model : string.
Variable is_Exception : PyException -> bool.

Local Abbreviation handle :=
  (handle_tool_execution messages_create execute_tool self_model).
Local Abbreviation generate :=
  (generate_response messages_create execute_tool self_model).
Local Abbreviation handle_any :=
  (handle_tool_execution_any messages_create execute_tool self_model
                             is_Exception).
Local Abbreviation generate_any :=
  (generate_response_any messages_create execute_tool self_model
                         is_Exception).
Local Abbreviation followup := (@followup_of Schema self_model).
Local Abbreviation RunT := (Run Schema World).
Local Abbreviation cutE := (@cut Schema is_Exception).
Local Abbreviation escape := (@first_escape Schema is_Exception).
Local Abbreviation escaping := (@escapes Schema is_Exception).

(** *** Cutting a log at the first exception that is not caught *)

Lemma cut_no_escape (l : list (Event Schema)) :
  escape l = None -> cutE l = l.
Proof.
  induction l as [|[p r|n a [t|x]] l IH]; cbn; intros H;
    try (rewrite IH by exact H; reflexivity); [reflexivity|].
  destruct (is_Exception x); [|discriminate]. cbn.
  rewrite IH by exact H. reflexivity.
Qed.

Lemma cut_app_none (l1 l2 : list (Event Schema)) :
  escape l1 = None ->
  cutE (l1 ++ l2) = l1 ++ cutE l2 /\ escape (l1 ++ l2) = escape l2.
Proof.
  induction l1 as [|[p r|n a [t|x]] l1 IH]; cbn; intros H;
    try (destruct (IH H) as [-> ->]; auto); [auto|].
  destruct (is_Exception x); [|discriminate]. cbn.
  destruct (IH H) as [-> ->]. auto.
Qed.

Lemma cut_app_some (l1 l2 : list (Event Schema)) b :
  escape l1 = Some b ->
  cutE (l1 ++ l2) = cutE l1 /\ escape (l1 ++ l2) = Some b.
Proof.
  induction l1 as [|[p r|n a [t|x]] l1 IH]; cbn; intros H;
    try discriminate;
    try (destruct (IH H) as [-> ->]; auto).
  destruct (is_Exception x); cbn; [|auto].
  destruct (IH H) as [-> ->]. auto.
Qed.

Lemma cut_escape_last (l : list (Event Schema)) b :
  escape l = Some b ->
  exists l1 n a tail,
    l = l1 ++ EvExecute n a (Raise b) :: tail /\
    cutE l = l1 ++ [EvExecute n a (Raise b)] /\
    is_Exception b = false /\ escape l1 = None.
Proof.
  induction l as [|e l IH]; cbn; [discriminate|].
  destruct e as [p r|n a [t|x]].
  - intros H. destruct (IH H) as (l1 & n & a & tail & -> & Hc & Hb & H1).
    exists (EvCreate p r :: l1), n, a, tail. cbn. rewrite Hc.
    repeat split; assumption.
  - intros H. destruct (IH H) as (l1 & n' & a' & tail & -> & Hc & Hb & H1).
    exists (EvExecute n a (Ok t) :: l1), n', a', tail. cbn. rewrite Hc.
    repeat split; assumption.
  - destruct (is_Exception x) eqn:Hx; cbn.
    + intros H. destruct (IH H) as (l1 & n' & a' & tail & -> & Hc & Hb & H1).
      exists (EvExecute n a (Raise x) :: l1), n', a', tail. cbn.
      rewrite Hc, Hx. repeat split; assumption.
    + intros [= <-]. exists [], n, a, l. rewrite Hx. repeat split.
Qed.

Lemma cut_split (l pre post : list (Event Schema)) x :
  cutE l = pre ++ x :: post ->
  exists tail,
    l = pre ++ x :: tail /\ escape pre = None /\
    ((escaping x = true /\ post = []) \/
     (escaping x = false /\ post = cutE tail)).
Proof.
  revert l. induction pre as [|y pre IH]; intros [|e l]; cbn [cut app];
    try discriminate.
  - destruct (escaping e) eqn:He; intros [= -> <-];
      exists l; repeat split; auto.
  - destruct (escaping e) eqn:He.
    + intros [= -> H]. destruct pre; discriminate.
    + intros [= -> H]. destruct (IH l H) as (tail & -> & Hp & Hc).
      exists tail. repeat split; try assumption.
      cbn. destruct y as [p r|n a [t|z]]; try exact Hp.
      cbn in He. destruct (is_Exception z); [exact Hp|discriminate].
Qed.

Lemma cut_executes (l : list (Event Schema)) :
  forallb (@is_execute Schema) l = true ->
  forallb (@is_execute Schema) (cutE l) = true.
Proof.
  induction l as [|e l IH]; cbn; [auto|].
  intros [He Hl]%andb_prop. destruct (escaping e); cbn; rewrite He; auto.
Qed.

(** *** The tool loop and the handler *)

Lemma run_tools_any_spec (tm : ToolManager) (blocks : list ContentBlock) :
  forall (acc : list ToolResult) (err : bool) (s : RunT),
    match escape (events_of (tool_uses blocks)
                    (fst (exec_seq execute_tool tm (tool_uses blocks) (world s))))
    with
    | None =>
        run_tools_any execute_tool is_Exception tm blocks acc err s
        = run_tools execute_tool tm blocks acc err s
    | Some b =>
        exists w',
          run_tools_any execute_tool is_Exception tm blocks acc err s
          = (Raise b,
             mkRun w'
               (log s ++ cutE (events_of (tool_uses blocks)
                                 (fst (exec_seq execute_tool tm
                                         (tool_uses blocks) (world s))))))
    end.
Proof.
  induction blocks as [|blk bs IH]; intros acc err s.
  - cbn. reflexivity.
  - destruct blk as [t|id name input|t];
      cbn [run_tools_any run_tools tool_uses flat_map app]; try apply IH.
    change (flat_map _ bs) with (tool_uses bs).
    unfold bind, try_except, try_except_Exception, call_execute_tool.
    cbn [exec_seq].
    destruct (execute_tool tm name input (world s)) as [r w1] eqn:E1.
    specialize (IH (acc ++ [mkToolResult "tool_result" id (rendered r)])
                   (err || raised r)
                   (mkRun w1 (log s ++ [EvExecute name input r]))).
    cbn [world log] in IH.
    destruct (exec_seq execute_tool tm (tool_uses bs) w1) as [rs w2] eqn:E2.
    cbn [fst] in *. unfold events_of in *.
    cbn [combine map event_of first_escape cut escapes].
    destruct r as [out|x].
    + cbn [rendered raised is_ok negb] in IH. rewrite orb_false_r in IH.
      destruct (escape (map event_of (combine (tool_uses bs) rs))) as [b|].
      * destruct IH as [w' IH]. exists w'. rewrite IH, <- app_assoc.
        reflexivity.
      * exact IH.
    + destruct (is_Exception x) eqn:Hx; cbn [negb].
      * cbn [rendered raised is_ok negb] in IH. rewrite orb_true_r in IH.
        destruct (escape (map event_of (combine (tool_uses bs) rs))) as [b|].
        -- destruct IH as [w' IH]. exists w'. rewrite IH, <- app_assoc.
           reflexivity.
        -- exact IH.
      * exists w1. reflexivity.
Qed.

Lemma handle_any_round (resp : Message) (base : ApiParams Schema)
      (tm : ToolManager) (round : nat) (s : RunT) :
  let uses := tool_uses (content resp) in
  let outs := fst (exec_seq execute_tool tm uses (world s)) in
  let w1 := snd (exec_seq execute_tool tm uses (world s)) in
  let p := followup base round resp outs in
  let r := fst (messages_create p w1) in
  let s2 := mkRun (snd (messages_create p w1))
                  (log s ++ events_of uses outs ++ [EvCreate p r]) in
  match escape (events_of uses outs) with
  | Some b =>
      exists w',
        handle_any resp base tm round s
        = (Raise b, mkRun w' (log s ++ cutE (events_of uses outs)))
  | None =>
      handle_any resp base tm round s =
      match r with
      | Raise e => (Raise e, s2)
      | Ok m =>
          if is_tool_use m && include_tools_of round outs
          then handle_any m (updated_of base resp outs) tm (S round) s2
          else (Ok (final_text m), s2)
      end
  end.
Proof.
  intros uses outs w1 p r s2.
  pose proof (run_tools_any_spec tm (content resp) [] false s) as Hloop.
  fold uses in Hloop. fold outs in Hloop.
  destruct (escape (events_of uses outs)) as [b|];
    rewrite handle_tool_execution_any_equation_1; unfold bind at 1.
  - destruct Hloop as [w' ->]. exists w'. reflexivity.
  - rewrite Hloop, run_tools_spec. cbn [app fst snd].
    fold uses. fold outs. fold w1. rewrite orb_false_l.
    unfold bind, call_create. cbn [world log].
    match goal with
    | |- context [messages_create ?q w1] =>
        replace q with p
          by (unfold p, followup_of, round_messages, include_tools_of;
              fold uses; destruct (results_of uses outs); reflexivity)
    end.
    subst s2 r. rewrite (app_assoc (log s)).
    destruct (messages_create p w1) as [[m|e] w2]; cbn [fst snd];
      [|reflexivity].
    change ((round <? MAX_TOOL_ROUNDS) && negb (existsb (@raised string) outs))
      with (include_tools_of round outs).
    destruct (bool_dec (is_tool_use m && include_tools_of round outs) true)
      as [Hc|Hc].
    + rewrite Hc. f_equal.
      unfold updated_of, round_messages. fold uses.
      destruct (results_of uses outs); reflexivity.
    + apply not_true_is_false in Hc. rewrite Hc.
      unfold final_text, ret. destruct (first_text (content m)); reflexivity.
Qed.

Lemma handle_any_cut_aux (n : nat) :
  forall round resp base tm (s : RunT) evs,
    MAX_TOOL_ROUNDS - round <= n ->
    log (snd (handle resp base tm round s)) = log s ++ evs ->
    match escape evs with
    | None => handle_any resp base tm round s = handle resp base tm round s
    | Some b =>
        exists w',
          handle_any resp base tm round s
          = (Raise b, mkRun w' (log s ++ cutE evs))
    end.
Proof.
  induction n as [|n IH]; intros round resp base tm s evs Hn Hlog;
    pose proof (handle_any_round resp base tm round s) as Hany;
    rewrite handle_round in Hlog |- *; cbn zeta in Hany;
    set (uses := tool_uses (content resp)) in *;
    set (outs := fst (exec_seq execute_tool tm uses (world s))) in *;
    set (w1 := snd (exec_seq execute_tool tm uses (world s))) in *;
    set (p := followup base round resp outs) in *;
    destruct (messages_create p w1) as [[m|e] w2] eqn:Hc;
    cbn [fst snd] in *.
  - (* at the cap, an answer *)
    assert (Hinc : include_tools_of round outs = false).
    { unfold include_tools_of.
      assert ((round <? MAX_TOOL_ROUNDS) = false) as ->
          by (apply Nat.ltb_ge; lia).
      reflexivity. }
    rewrite Hinc, andb_false_r in *. cbn [snd log] in Hlog.
    apply app_inv_head in Hlog. subst evs.
    destruct (escape (events_of uses outs)) as [b|] eqn:He.
    + destruct (cut_app_some _ [EvCreate p (Ok m)] He) as [Hcut Hesc]; rewrite Hesc, Hcut.
      exact Hany.
    + destruct (cut_app_none _ [EvCreate p (Ok m)] He) as [_ Hesc]; rewrite Hesc.
      exact Hany.
  - (* at the cap, the call raised *)
    cbn [snd log] in Hlog. apply app_inv_head in Hlog. subst evs.
    destruct (escape (events_of uses outs)) as [b|] eqn:He.
    + destruct (cut_app_some _ [EvCreate p (Raise e)] He) as [Hcut Hesc]; rewrite Hesc, Hcut.
      exact Hany.
    + destruct (cut_app_none _ [EvCreate p (Raise e)] He) as [_ Hesc]; rewrite Hesc.
      exact Hany.
  - destruct (is_tool_use m && include_tools_of round outs) eqn:Hgo.
    + set (s2 := mkRun w2 (log s ++ events_of uses outs ++ [EvCreate p (Ok m)]))
        in *.
      destruct (handle_has_trace messages_create execute_tool self_model
                  (S round) m (updated_of base resp outs) tm s2)
        as [rest [Hrest _]].
      assert (Hle : MAX_TOOL_ROUNDS - S round <= n).
      { apply andb_prop in Hgo as [_ Hgo].
        apply include_tools_round in Hgo. lia. }
      pose proof (IH (S round) m (updated_of base resp outs) tm s2 rest
                     Hle Hrest) as Hnext.
      rewrite Hrest in Hlog. unfold s2 in Hlog. cbn [log] in Hlog.
      rewrite <- !app_assoc in Hlog. apply app_inv_head in Hlog. subst evs.
      destruct (escape (events_of uses outs)) as [b|] eqn:He.
      * destruct (cut_app_some _ ([EvCreate p (Ok m)] ++ rest) He) as [Hcut Hesc]; rewrite Hesc, Hcut.
        exact Hany.
      * destruct (cut_app_none _ ([EvCreate p (Ok m)] ++ rest) He)
          as [Hcut Hesc]. rewrite Hesc.
        cbn [app first_escape].
        destruct (escape rest) as [b|] eqn:Hr.
        -- destruct Hnext as [w' Hnext]. exists w'.
           rewrite Hany, Hnext. change (EvCreate p (Ok m) :: rest)
             with ([EvCreate p (Ok m)] ++ rest).
           rewrite Hcut. unfold s2. cbn [log app cut escapes].
           rewrite <- !app_assoc. reflexivity.
        -- rewrite Hany, Hnext. reflexivity.
    + cbn [snd log] in Hlog. apply app_inv_head in Hlog. subst evs.
      destruct (escape (events_of uses outs)) as [b|] eqn:He.
      * destruct (cut_app_some _ [EvCreate p (Ok m)] He) as [Hcut Hesc]; rewrite Hesc, Hcut.
        exact Hany.
      * destruct (cut_app_none _ [EvCreate p (Ok m)] He) as [_ Hesc]; rewrite Hesc.
        exact Hany.
  - cbn [snd log] in Hlog. apply app_inv_head in Hlog. subst evs.
    destruct (escape (events_of uses outs)) as [b|] eqn:He.
    + destruct (cut_app_some _ [EvCreate p (Raise e)] He) as [Hcut Hesc]; rewrite Hesc, Hcut.
      exact Hany.
    + destruct (cut_app_none _ [EvCreate p (Raise e)] He) as [_ Hesc]; rewrite Hesc.
      exact Hany.
Qed.

Lemma handle_any_cut (round : nat) (resp : Message) (base : ApiParams Schema)
      (tm : ToolManager) (s : RunT) (evs : list (Event Schema)) :
  log (snd (handle resp base tm round s)) = log s ++ evs ->
  match escape evs with
  | None => handle_any resp base tm round s = handle resp base tm round s
  | Some b =>
      exists w',
        handle_any resp base tm round s
        = (Raise b, mkRun w' (log s ++ cutE evs))
  end.
Proof.
  intros H.
  exact (@handle_any_cut_aux (MAX_TOOL_ROUNDS - round) round resp base tm s
                             evs (le_n _) H).
Qed.

(** *** Whole queries *)

Lemma generate_any_run query history tl tm (w : World) :
  let p0 := first_params self_model query history tl in
  let r0 := fst (messages_create p0 w) in
  let s1 : RunT := mkRun (snd (messages_create p0 w)) [EvCreate p0 r0] in
  generate_any query history tl tm (mkRun w []) =
  match r0, tm with
  | Ok m, Some t =>
      if is_tool_use m then handle_any m p0 t 1 s1 else (direct_result r0, s1)
  | _, _ => (direct_result r0, s1)
  end.
Proof.
  cbn zeta. unfold generate_response_any.
  match goal with
  | |- context [call_create _ ?q] =>
      replace q with (first_params self_model query history tl)
  end.
  2:{ unfold first_params, system_content, base_params, truthy_str, truthy_list.
      destruct history as [h|]; [destruct (String.eqb h EmptyString)|];
        destruct tl as [[|t ts]|]; reflexivity. }
  unfold bind, call_create. cbn [world log app].
  destruct (messages_create (first_params self_model query history tl) w)
    as [[m|e] w1]; cbn [fst snd]; [|destruct tm; reflexivity].
  unfold first_block_text, raise, ret. cbn [direct_result].
  destruct (is_tool_use m), tm; try reflexivity;
    destruct (content m) as [|[t'|i n a|t'] bs]; reflexivity.
Qed.

(** The run for tools that may raise anything, read off the run in
    which every exception is caught: the same run when no exception
    escapes; otherwise it stops at the first tool execution whose
    exception escapes, and that exception is the outcome. *)
Lemma generate_any_cases query history tl tm (w : World) :
  match escape (log (snd (generate query history tl tm (mkRun w [])))) with
  | None =>
      generate_any query history tl tm (mkRun w [])
      = generate query history tl tm (mkRun w [])
  | Some b =>
      exists w',
        generate_any query history tl tm (mkRun w [])
        = (Raise b,
           mkRun w'
             (cutE (log (snd (generate query history tl tm (mkRun w []))))))
  end.
Proof.
  rewrite generate_any_run, generate_run.
  set (p0 := first_params self_model query history tl).
  destruct (messages_create p0 w) as [[m|e] w1]; cbn [fst snd];
    [destruct tm as [t|]; [destruct (is_tool_use m)|]|];
    cbn [snd log first_escape]; try reflexivity.
  set (s1 := mkRun w1 [EvCreate p0 (Ok m)]).
  destruct (handle_has_trace messages_create execute_tool self_model
              1 m p0 t s1) as [evs [Hlog _]].
  pose proof (handle_any_cut 1 m p0 t s1 evs Hlog) as H.
  rewrite Hlog. cbn [s1 log app first_escape cut escapes].
  destruct (escape evs) as [b|]; [|exact H].
  destruct H as [w' H]. exists w'. rewrite H. reflexivity.
Qed.

Lemma generate_any_cut query history tl tm (w : World) :
  log (snd (generate_any query history tl tm (mkRun w [])))
  = cutE (log (snd (generate query history tl tm (mkRun w [])))) /\
  fst (generate_any query history tl tm (mkRun w []))
  = match escape (log (snd (generate query history tl tm (mkRun w [])))) with
    | Some b => Raise b
    | None => fst (generate query history tl tm (mkRun w []))
    end.
Proof.
  pose proof (generate_any_cases query history tl tm w) as H.
  destruct (escape (log (snd (generate query history tl tm (mkRun w [])))))
    as [b|] eqn:He.
  - destruct H as [w' ->]. split; reflexivity.
  - rewrite H, (cut_no_escape _ He). split; reflexivity.
Qed.

(** The two generators agree on every run in which no tool raises
    outside the [Exception] hierarchy. *)
Lemma generate_response_any_agrees query history tl tm (w : World) :
  escape (log (snd (generate query history tl tm (mkRun w [])))) = None ->
  generate_any query history tl tm (mkRun w [])
  = generate query history tl tm (mkRun w []).
Proof.
  intros He. pose proof (generate_any_cases query history tl tm w) as H.
  rewrite He in H. exact H.
Qed.

Lemma escape_caught (l : list (Event Schema)) :
  (forall e, is_Exception e = true) -> escape l = None.
Proof.
  intros Hall. induction l as [|[p r|n a [t|x]] l IH]; cbn; auto.
  rewrite Hall. exact IH.
Qed.

(** In particular they agree when every exception is an instance of
    [Exception]. *)
Lemma generate_response_any_all_caught query history tl tm (w : World) :
  (forall e, is_Exception e = true) ->
  generate_any query history tl tm (mkRun w [])
  = generate query history tl tm (mkRun w []).
Proof.
  intros Hall. apply generate_response_any_agrees, escape_caught, Hall.
Qed.

Lemma escape_mid (pre tail : list (Event Schema)) (x : Event Schema) :
  escape pre = None ->
  escape (pre ++ x :: tail)
  = match x with
    | EvExecute _ _ (Raise e) =>
        if is_Exception e then escape tail else Some e
    | _ => escape tail
    end.
Proof.
  intros H. rewrite (proj2 (cut_app_none pre (x :: tail) H)).
  destruct x as [p r|n a [t|e]]; reflexivity.
Qed.

(** What is left of the calls [after ++ c :: rest] that follow a tool
    execution, [c] being the next LLM call: all of them up to [c], or
    they stop at a later execution of the same turn that escapes. *)
Lemma cut_rest_of_turn (after rest : list (Event Schema)) (c : Event Schema) :
  forallb (@is_execute Schema) after = true ->
  escaping c = false ->
  (escape after = None /\
   cutE (after ++ c :: rest) = after ++ c :: cutE rest /\
   escape (after ++ c :: rest) = escape rest)
  \/
  (exists after' n a b,
      cutE (after ++ c :: rest) = after' ++ [EvExecute n a (Raise b)] /\
      forallb (@is_execute Schema) after' = true /\
      is_Exception b = false /\
      escape (after ++ c :: rest) = Some b).
Proof.
  intros Hex Hc. destruct (escape after) as [b|] eqn:He.
  - right. destruct (cut_escape_last _ He) as (l1 & n & a & t & Hl & Hcut & Hb & _).
    destruct (cut_app_some after (c :: rest) He) as [Hc1 Hc2].
    exists l1, n, a, b. rewrite Hc1, Hcut, Hc2.
    repeat split; try assumption.
    rewrite Hl, forallb_app in Hex. apply andb_prop in Hex as [Hex _].
    exact Hex.
  - left. destruct (cut_app_none after (c :: rest) He) as [Hc1 Hc2].
    rewrite Hc1, Hc2. cbn [cut first_escape]. rewrite Hc.
    split; [reflexivity|]. split; [reflexivity|].
    destruct c as [p r|n a [t|x]]; try reflexivity.
    cbn in Hc. destruct (is_Exception x); [reflexivity|discriminate].
Qed.


(** *** Tool exceptions, caught or not *)

(** C3 (amended): a tool execution that raised [e] belongs to a
    tool-use block [id] of the latest LLM answer.  If [e] is an
    instance of [Exception], it is caught in the round: either the
    follow-up LLM call is made, its last message holds, at the block's
    position, the tool result ["Tool execution error: " ++ str(e)]
    tagged with [id], and the result of [generate_response] is decided
    by that follow-up call alone (its answer's text, or the failure of
    the LLM call itself); or a later tool call of the same turn raised
    an exception [b] that is not an instance of [Exception], which ends
    the query: [b] is what [generate_response] raises.  If [e] is not
    an instance of [Exception], it is not caught: the execution is the
    last outbound call of the query, and [generate_response] raises
    [e]. *)
Theorem tool_exception_contained query history tl tm (w : World)
        pre name input e post :
  let run := generate_any query history tl tm (mkRun w []) in
  log (snd run) = pre ++ EvExecute name input (Raise e) :: post ->
  exists hist p' resp before id,
    pre = hist ++ EvCreate p' (Ok resp) :: before /\
    forallb (@is_execute Schema) before = true /\
    nth_error (tool_uses (content resp)) (length before)
      = Some (id, name, input) /\
    if is_Exception e
    then
      (exists after p r rs msgs,
          post = after ++ [EvCreate p r] /\
          forallb (@is_execute Schema) after = true /\
          fst run = final_result r /\
          messages p = msgs ++ [mkChat "user" (CToolResults rs)] /\
          nth_error rs (length before)
            = Some (mkToolResult "tool_result" id
                                 (TOOL_ERROR_PREFIX ++ exc_str e)%string))
      \/
      (exists after n' a' b,
          post = after ++ [EvExecute n' a' (Raise b)] /\
          forallb (@is_execute Schema) after = true /\
          is_Exception b = false /\
          fst run = Raise b)
    else post = [] /\ fst run = Raise e.
Proof.
  cbn zeta. intros Hlog.
  destruct (generate_any_cut query history tl tm w) as [Hcut Hres].
  rewrite Hcut in Hlog. rewrite Hres.
  destruct (cut_split _ _ _ _ Hlog) as (tail & HR & Hpre & Hx).
  destruct (generate_raise_contained messages_create execute_tool self_model
              query history tl tm w pre name input e tail HR)
    as (hist & p' & resp & before & after & p & r & id & rs & msgs
        & H1 & H2 & H3 & H4 & H5 & _ & H7 & H8 & H9).
  exists hist, p', resp, before, id.
  split; [exact H1|]. split; [exact H2|]. split; [exact H3|].
  rewrite HR, (escape_mid pre tail _ Hpre).
  cbn [escapes] in Hx. destruct (is_Exception e) eqn:He.
  - destruct Hx as [[Hx _]|[_ Hpost]]; [discriminate|]. subst tail.
    destruct (cut_rest_of_turn after [] (EvCreate p r) H5 eq_refl)
      as [(_ & Hc & Hesc)|(after' & n' & a' & b & Hc & Hex & Hb & Hesc)].
    + left. exists after, p, r, rs, msgs. rewrite Hesc, Hpost, Hc.
      cbn [first_escape cut]. repeat split; assumption.
    + right. exists after', n', a', b. rewrite Hesc, Hpost, Hc.
      repeat split; assumption.
  - destruct Hx as [[_ Hpost]|[Hx _]]; [|discriminate].
    split; [exact Hpost|reflexivity].
Qed.

(** X10: no tool runs unasked, and every outcome is reported unless an
    exception is not caught.  Every tool execution of a query happens
    with a tool manager passed, on a tool-use block (same name and
    arguments) of the latest LLM answer, whose stop reason is
    ["tool_use"]; the blocks of that answer before it were executed
    first.  Then either the next LLM call is made with a last message
    that holds, at the block's position and under the block's id, the
    text the tool returned, unchanged, or the error text when it raised
    an [Exception]; or the execution raised an exception that is not an
    instance of [Exception], it is the last call of the query and
    [generate_response] raises that exception; or a later execution of
    the same turn did so. *)
Theorem executions_are_requested query history tl tm (w : World)
        pre name input r post :
  let run := generate_any query history tl tm (mkRun w []) in
  log (snd run) = pre ++ EvExecute name input r :: post ->
  tm <> None /\
  exists hist p' resp before id,
    pre = hist ++ EvCreate p' (Ok resp) :: before /\
    forallb (@is_execute Schema) before = true /\
    stop_reason resp = "tool_use" /\
    nth_error (tool_uses (content resp)) (length before)
      = Some (id, name, input) /\
    ((exists after p r' rest rs msgs,
         post = after ++ EvCreate p r' :: rest /\
         forallb (@is_execute Schema) after = true /\
         messages p = msgs ++ [mkChat "user" (CToolResults rs)] /\
         nth_error rs (length before)
           = Some (mkToolResult "tool_result" id
                     match r with
                     | Ok text => text
                     | Raise e => ("Tool execution error: " ++ exc_str e)%string
                     end))
     \/
     (exists e,
         r = Raise e /\ is_Exception e = false /\ post = [] /\
         fst run = Raise e)
     \/
     (exists after n' a' b,
         post = after ++ [EvExecute n' a' (Raise b)] /\
         forallb (@is_execute Schema) after = true /\
         is_Exception b = false /\
         fst run = Raise b)).
Proof.
  cbn zeta. intros Hlog.
  destruct (generate_any_cut query history tl tm w) as [Hcut Hres].
  rewrite Hcut in Hlog. rewrite Hres.
  destruct (cut_split _ _ _ _ Hlog) as (tail & HR & Hpre & Hx).
  destruct (generate_execute_reported messages_create execute_tool self_model
              query history tl tm w pre name input r tail HR)
    as (Htm & hist & p' & resp & before & after & p & r' & rest & id & rs
        & msgs & H1 & H2 & H3 & H4 & H5 & H6 & H7 & H8).
  split; [exact Htm|].
  exists hist, p', resp, before, id.
  split; [exact H1|]. split; [exact H2|]. split; [exact H3|].
  split; [exact H4|].
  rewrite HR, (escape_mid pre tail _ Hpre).
  destruct Hx as [[Hx ->]|[Hx ->]].
  - right; left. destruct r as [t|e]; [discriminate|]. cbn in Hx.
    destruct (is_Exception e) eqn:Hie; [discriminate|].
    exists e. split; [reflexivity|]. split; [exact Hie|].
    split; reflexivity.
  - assert (Hesc0 : match @EvExecute Schema name input r with
                    | EvExecute _ _ (Raise e) =>
                        if is_Exception e then escape tail else Some e
                    | _ => escape tail
                    end = escape tail).
    { destruct r as [t|e]; [reflexivity|]. cbn in Hx.
      destruct (is_Exception e); [reflexivity|discriminate]. }
    rewrite Hesc0. subst tail.
    destruct (cut_rest_of_turn after rest (EvCreate p r') H6 eq_refl)
      as [(_ & Hc & Hesc)|(after' & n' & a' & b & Hc & Hex & Hb & Hesc)].
    + left. exists after, p, r', (cutE rest), rs, msgs. rewrite Hc.
      repeat split; assumption.
    + right; right. exists after', n', a', b. rewrite Hesc, Hc.
      repeat split; assumption.
Qed.

(** X6: [generate_response] raises in three ways only.  Either the LLM
    call made last raised, and that exception is the one passed on; or
    the first answer was returned directly, by reading
    [content[0].text], and that answer has no block ([IndexError]) or a
    first block without a [text] attribute ([AttributeError]); or the
    tool execution made last raised an exception that is not an
    instance of [Exception], which is passed on.  An [Exception] raised
    by a tool is never what [generate_response] raises on account of
    the tool. *)
Theorem raises_from_llm_text_read_or_uncaught_tool query history tl tm
        (w : World) e :
  let run := generate_any query history tl tm (mkRun w []) in
  fst run = Raise e ->
  (exists pre p, log (snd run) = pre ++ [EvCreate p (Raise e)])
  \/ (exists p m,
         log (snd run) = [EvCreate p (Ok m)] /\
         ((content m = [] /\ e = IndexError)
          \/ exists b bs, content m = b :: bs /\ hasattr_text b = false /\
                          e = AttributeError b))
  \/ (exists pre name input,
         log (snd run) = pre ++ [EvExecute name input (Raise e)] /\
         is_Exception e = false).
Proof.
  cbn zeta. intros Hres.
  pose proof (generate_any_cases query history tl tm w) as H.
  destruct (escape (log (snd (generate query history tl tm (mkRun w [])))))
    as [b|] eqn:He.
  - destruct H as [w' H]. rewrite H in Hres |- *. cbn [fst snd log] in *.
    injection Hres as ->. right. right.
    destruct (cut_escape_last _ He) as (l1 & n & a & t & _ & Hcut & Hb & _).
    exists l1, n, a. split; assumption.
  - rewrite H in Hres |- *.
    destruct (generate_raise_cases messages_create execute_tool self_model
                query history tl tm w Hres) as [Hl|Hd];
      [left|right; left]; assumption.
Qed.


End AnyExceptionFacts.

(* ===================================================================== *)
(** ** Runs with tools that raise outside the [Exception] hierarchy *)
(* ===================================================================== *)

Module PythonFacts.
Import Script Python.

Local Abbreviation create := (@messages_create Schema).

Example is_Exception_tests :
  is_Exception db_failure = true /\
  is_Exception (mkExc "ValueError" "bad value") = true /\
  is_Exception StopIteration = true /\
  is_Exception KeyboardInterrupt = false /\
  is_Exception (mkExc "SystemExit" "1") = false.
Proof. repeat split. Qed.

(** The text of the [AttributeError] of [content[0].text]. *)
Example bare_request_run_raises :
  fst Scenarios.bare_request_run
  = Raise (mkExc "AttributeError"
                 "'ToolUseBlock' object has no attribute 'text'").
Proof. vm_compute. reflexivity. Qed.

(** An [Exception] of the first call is caught, the interrupt of the
    second one is not: no LLM call follows. *)
Example late_interrupt_run_calls :
  fst late_interrupt_run = Raise KeyboardInterrupt /\
  log (snd late_interrupt_run)
  = [EvCreate (user_params "search") (Ok fail_then_slow_msg);
     EvExecute "search_course_content" [("query", "fail")] (Raise db_failure);
     EvExecute "search_course_content" [("query", "slow")]
               (Raise KeyboardInterrupt)].
Proof. split; vm_compute; reflexivity. Qed.

(** C3 as stated fails for an exception that is not an instance of
    [Exception]: the search is interrupted from the keyboard, the
    exception leaves [generate_response], and the raising execution is
    the last outbound call of the query: no follow-up LLM call is made,
    so no tool result is recorded for it. *)
Lemma tool_exception_not_caught :
  is_Exception KeyboardInterrupt = false /\
  fst interrupted_run = Raise KeyboardInterrupt /\
  log (snd interrupted_run)
  = [EvCreate (user_params "What is AI?") (Ok (tool_msg "t1" "AI"));
     EvExecute "search_course_content" [("query", "AI")]
               (Raise KeyboardInterrupt)] /\
  ~ (exists pre after p r,
        log (snd interrupted_run)
        = pre ++ EvExecute "search_course_content" [("query", "AI")]
                           (Raise KeyboardInterrupt)
              :: after ++ [EvCreate p r]).
Proof.
  assert (H : log (snd interrupted_run)
              = [EvCreate (user_params "What is AI?")
                          (Ok (tool_msg "t1" "AI"));
                 EvExecute "search_course_content" [("query", "AI")]
                           (Raise KeyboardInterrupt)])
    by (vm_compute; reflexivity).
  split; [reflexivity|]. split; [vm_compute; reflexivity|].
  split; [exact H|].
  intros (pre & after & p & r & Hlog). rewrite H in Hlog.
  destruct pre as [|c [|c' pre]]; cbn [app] in Hlog.
  - discriminate Hlog.
  - injection Hlog as _ Hlog. destruct after; discriminate Hlog.
  - injection Hlog as _ _ Hlog. destruct pre; discriminate Hlog.
Qed.

Lemma tool_exception_contained_caught_run :
  log (snd caught_run)
  = firstn 2 (log (snd caught_run))
      ++ EvExecute "search_course_content" [("query", "fail")]
                   (Raise db_failure)
      :: skipn 3 (log (snd caught_run)) /\
  is_Exception db_failure = true /\
  exists hist p' resp before id,
    firstn 2 (log (snd caught_run))
      = hist ++ EvCreate p' (Ok resp) :: before /\
    forallb (@is_execute Schema) before = true /\
    nth_error (tool_uses (content resp)) (length before)
      = Some (id, "search_course_content", [("query", "fail")]) /\
    ((exists after p r rs msgs,
         skipn 3 (log (snd caught_run)) = after ++ [EvCreate p r] /\
         forallb (@is_execute Schema) after = true /\
         fst caught_run = final_result r /\
         messages p = msgs ++ [mkChat "user" (CToolResults rs)] /\
         nth_error rs (length before)
           = Some (mkToolResult "tool_result" id
                     "Tool execution error: DB connection failed"))
     \/
     (exists after n' a' b,
         skipn 3 (log (snd caught_run))
         = after ++ [EvExecute n' a' (Raise b)] /\
         forallb (@is_execute Schema) after = true /\
         is_Exception b = false /\
         fst caught_run = Raise b)).
Proof.
  assert (H : log (snd caught_run)
              = firstn 2 (log (snd caught_run))
                  ++ EvExecute "search_course_content" [("query", "fail")]
                               (Raise db_failure)
                  :: skipn 3 (log (snd caught_run)))
    by (vm_compute; reflexivity).
  split; [exact H|]. split; [reflexivity|].
  exact (@tool_exception_contained _ _ create _ execute_tool "claude"
           is_Exception "search" None (Some [search_def]) (Some tm_mixed)
           _ _ _ _ _ _ H).
Defined.

Lemma executions_are_requested_caught_run :
  log (snd caught_run)
  = firstn 1 (log (snd caught_run))
      ++ EvExecute "search_course_content" [("query", "q1")]
                   (Ok "search results")
      :: skipn 2 (log (snd caught_run)) /\
  Some tm_mixed <> None /\
  exists hist p' resp before id,
    firstn 1 (log (snd caught_run))
      = hist ++ EvCreate p' (Ok resp) :: before /\
    forallb (@is_execute Schema) before = true /\
    stop_reason resp = "tool_use" /\
    nth_error (tool_uses (content resp)) (length before)
      = Some (id, "search_course_content", [("query", "q1")]) /\
    ((exists after p r' rest rs msgs,
         skipn 2 (log (snd caught_run)) = after ++ EvCreate p r' :: rest /\
         forallb (@is_execute Schema) after = true /\
         messages p = msgs ++ [mkChat "user" (CToolResults rs)] /\
         nth_error rs (length before)
           = Some (mkToolResult "tool_result" id "search results"))
     \/
     (exists e,
         Ok "search results" = Raise e /\ is_Exception e = false /\
         skipn 2 (log (snd caught_run)) = [] /\
         fst caught_run = Raise e)
     \/
     (exists after n' a' b,
         skipn 2 (log (snd caught_run))
         = after ++ [EvExecute n' a' (Raise b)] /\
         forallb (@is_execute Schema) after = true /\
         is_Exception b = false /\
         fst caught_run = Raise b)).
Proof.
  assert (H : log (snd caught_run)
              = firstn 1 (log (snd caught_run))
                  ++ EvExecute "search_course_content" [("query", "q1")]
                               (Ok "search results")
                  :: skipn 2 (log (snd caught_run)))
    by (vm_compute; reflexivity).
  split; [exact H|].
  exact (@executions_are_requested _ _ create _ execute_tool "claude"
           is_Exception "search" None (Some [search_def]) (Some tm_mixed)
           _ _ _ _ _ _ H).
Defined.

Lemma raises_from_llm_text_read_or_uncaught_tool_interrupted_run :
  fst interrupted_run = Raise KeyboardInterrupt /\
  ((exists pre p,
       log (snd interrupted_run)
       = pre ++ [EvCreate p (Raise KeyboardInterrupt)])
   \/ (exists p m,
          log (snd interrupted_run) = [EvCreate p (Ok m)] /\
          ((content m = [] /\ KeyboardInterrupt = IndexError)
           \/ exists b bs,
               content m = b :: bs /\ hasattr_text b = false /\
               KeyboardInterrupt = AttributeError b))
   \/ (exists pre name input,
          log (snd interrupted_run)
          = pre ++ [EvExecute name input (Raise KeyboardInterrupt)] /\
          is_Exception KeyboardInterrupt = false)).
Proof.
  assert (H : fst interrupted_run = Raise KeyboardInterrupt)
    by (vm_compute; reflexivity).
  split; [exact H|].
  exact (@raises_from_llm_text_read_or_uncaught_tool _ _ create _
           execute_tool "claude" is_Exception "What is AI?" None
           (Some [search_def]) (Some tm_interrupted) _ _ H).
Defined.

End PythonFacts.
